(** * A shallow embedding of [profiler.py]

    The sampling profiler polls a Spring Boot actuator thread-dump endpoint,
    extracts the frames of RUNNABLE threads, and aggregates them into a
    report of [(method, count, average depth)] rows.

    Modelling conventions.
    - A value returned by [response.json()] is a [json]; Python's [None] is
      [JNull].  A JSON object is the list of its items in insertion order
      (keys pairwise distinct, as in a Python [dict]).
    - Python [int] is [Z]; positions produced by [enumerate] are [nat].
    - Python [float] quantities (sleep intervals, the estimate, the average
      depth) are exact rationals [Q]: rounding to binary64 is not modelled.
    - A raised exception is the [Raise] outcome of [result].
    - [logging] calls append structured [event]s to a log.
    - The network and the random generator are oracles indexed by the
      number of the sample. *)

From Stdlib Require Import ZArith QArith Qfield Lqa String Ascii List Sorted Permutation.
From stdpp Require Import base option list strings gmap.

Local Open Scope string_scope.
Local Open Scope Z_scope.

(** ** Values *)

Set Warnings "-register-all".

Inductive json : Type :=
| JNull
| JBool (b : bool)
| JInt (n : Z)
| JFloat (q : Q)
| JStr (s : string)
| JArr (items : list json)
| JObj (fields : list (string * json)).

(** ** Exceptions *)

Inductive exn : Type :=
| KeyError (key : string)
| TypeError
| ValueError
| AttributeError
| ZeroDivisionError.

Inductive result (A : Type) : Type :=
| Ok (a : A)
| Raise (e : exn).

Arguments Ok {A} a.
Arguments Raise {A} e.

#[global] Instance result_ret : MRet result := fun _ a => Ok a.
#[global] Instance result_bind : MBind result := fun _ _ f m =>
  match m with
  | Ok a => f a
  | Raise e => Raise e
  end.

(** ** Python primitives on JSON values *)

Fixpoint assoc {A : Type} (k : string) (kvs : list (string * A)) : option A :=
  match kvs with
  | [] => None
  | (k', v) :: rest => if String.eqb k' k then Some v else assoc k rest
  end.

(** [v[k]] for a string key [k]. *)
Definition getitem (v : json) (k : string) : result json :=
  match v with
  | JObj kvs =>
      match assoc k kvs with
      | Some x => Ok x
      | None => Raise (KeyError k)
      end
  | _ => Raise TypeError
  end.

Definition chars (s : string) : list json :=
  map (fun c => JStr (String c EmptyString)) (list_ascii_of_string s).

(** The sequence a [for] loop runs through. *)
Definition py_iter (v : json) : result (list json) :=
  match v with
  | JArr l => Ok l
  | JObj kvs => Ok (map (fun kv => JStr (fst kv)) kvs)
  | JStr s => Ok (chars s)
  | _ => Raise TypeError
  end.

(** [list(reversed(v))]; lists, strings and (Python 3.8 and later) dicts
    are reversible. *)
Definition py_reversed (v : json) : result (list json) :=
  l ← py_iter v; Ok (rev l).

(** [v == s] for a string [s]. *)
Definition py_eq_str (v : json) (s : string) : bool :=
  match v with
  | JStr t => String.eqb t s
  | _ => false
  end.

(** [v.startswith(p)]. *)
Definition py_startswith (v : json) (p : string) : result bool :=
  match v with
  | JStr s => Ok (String.prefix p s)
  | _ => Raise AttributeError
  end.

(** Truth value of [v] in [if v:]. *)
Definition truthy (v : json) : bool :=
  match v with
  | JNull => false
  | JBool b => b
  | JInt n => negb (n =? 0)
  | JFloat q => negb (Qeq_bool q 0)
  | JStr s => negb (String.eqb s "")
  | JArr l => negb (Nat.eqb (length l) 0)
  | JObj kvs => negb (Nat.eqb (length kvs) 0)
  end.

(** [s.split(sep)] for a one-character separator. *)
Fixpoint split_on (sep : ascii) (s : string) : list string :=
  match s with
  | EmptyString => [EmptyString]
  | String c s' =>
      if Ascii.eqb c sep then EmptyString :: split_on sep s'
      else match split_on sep s' with
           | w :: ws => String c w :: ws
           | [] => [String c EmptyString]
           end
  end.

(** ** [filter_stack_trace] *)

(** The [for ... enumerate ... break] loop: the position of the first frame
    whose class and method names equal the filter's. *)
Fixpoint find_start_depth (class_name_filter method_name_filter : string)
    (stack_trace : list json) (depth : nat) : result (option nat) :=
  match stack_trace with
  | [] => Ok None
  | stack_frame :: rest =>
      cls ← getitem stack_frame "className";
      if py_eq_str cls class_name_filter then
        mth ← getitem stack_frame "methodName";
        if py_eq_str mth method_name_filter then Ok (Some depth)
        else find_start_depth class_name_filter method_name_filter rest (S depth)
      else find_start_depth class_name_filter method_name_filter rest (S depth)
  end.

Definition filter_stack_trace (stack_trace : list json)
    (method_filter : option string) : result (list json) :=
  match method_filter with
  | None => Ok stack_trace
  | Some mf =>
      if String.eqb mf "" then Ok stack_trace
      else
        match split_on "#" mf with
        | [class_name_filter; method_name_filter] =>
            start_depth ← find_start_depth class_name_filter method_name_filter stack_trace 0;
            match start_depth with
            | None => Ok []
            | Some d => Ok (drop d stack_trace)
            end
        | _ => Raise ValueError
        end
  end.

(** ** [extract_methods_with_depth] *)

Section Extractor.

(** Text that an f-string produces for a value that is not a string
    ([None], numbers, lists, ...).  No property below depends on it. *)
Variable str_of_nonstring : json -> string.

Definition format_value (v : json) : string :=
  match v with
  | JStr s => s
  | _ => str_of_nonstring v
  end.

(** The inner loop over [enumerate(filtered_stack_trace)]. *)
Fixpoint methods_of_frames (package_filter : string) (thread_state : json)
    (frames : list json) (depth : nat) : result (list (string * nat * json)) :=
  match frames with
  | [] => Ok []
  | stack_frame :: rest =>
      cls ← getitem stack_frame "className";
      selected ← py_startswith cls package_filter;
      if (selected : bool) then
        cls' ← getitem stack_frame "className";
        mth ← getitem stack_frame "methodName";
        let method := format_value cls' ++ "." ++ format_value mth in
        more ← methods_of_frames package_filter thread_state rest (S depth);
        Ok ((method, depth, thread_state) :: more)
      else methods_of_frames package_filter thread_state rest (S depth)
  end.

(** The body of the loop over threads, for one thread. *)
Definition methods_of_thread (package_filter : string)
    (method_filter : option string) (thread : json)
    : result (list (string * nat * json)) :=
  thread_state ← getitem thread "threadState";
  if py_eq_str thread_state "RUNNABLE" then
    raw ← getitem thread "stackTrace";
    stack_trace_reversed ← py_reversed raw;
    filtered_stack_trace ← filter_stack_trace stack_trace_reversed method_filter;
    methods_of_frames package_filter thread_state filtered_stack_trace 0
  else Ok [].

Fixpoint methods_of_threads (package_filter : string)
    (method_filter : option string) (threads : list json)
    : result (list (string * nat * json)) :=
  match threads with
  | [] => Ok []
  | thread :: rest =>
      here ← methods_of_thread package_filter method_filter thread;
      more ← methods_of_threads package_filter method_filter rest;
      Ok (here ++ more)%list
  end.

Definition extract_methods_with_depth (thread_dump : json)
    (package_filter : string) (method_filter : option string)
    : result (list (string * nat * json)) :=
  threads_value ← getitem thread_dump "threads";
  threads ← py_iter threads_value;
  methods_of_threads package_filter method_filter threads.

End Extractor.

(** ** Logging *)

Inductive event : Type :=
| InfoStarted (url : string)
| InfoEstimated (seconds : Q)
| DebugWaiting (interval : Q) (sample samples : Z)
| ErrorFetching
| ErrorParsing
| WarningSkipping (sample : Z)
| InfoFinished (url : string).

(** A computation that logs and may raise: the events logged so far are
    kept when an exception ends it. *)
Record logged (A : Type) : Type := Logged {
  events : list event;
  outcome : result A
}.

Arguments Logged {A} events outcome.
Arguments events {A} l.
Arguments outcome {A} l.

#[global] Instance logged_ret : MRet logged := fun _ a => Logged [] (Ok a).
#[global] Instance logged_bind : MBind logged := fun _ _ f m =>
  match outcome m with
  | Ok a => Logged (events m ++ events (f a)) (outcome (f a))
  | Raise e => Logged (events m) (Raise e)
  end.

Definition log (e : event) : logged unit := Logged [e] (Ok tt).

Definition lift {A : Type} (r : result A) : logged A := Logged [] r.

(** ** The outside world *)

(** What one call of [requests.get(url)] followed by [raise_for_status()]
    and [response.json()] does. *)
Inductive response : Type :=
| RequestFailed          (* a [RequestException]: no connection, bad status *)
| InvalidJson            (* the body is not JSON: [JSONDecodeError] *)
| Body (parsed : json).  (* [response.json()] returned [parsed] *)

(** [time.sleep(secs)] raises [ValueError] for a negative length. *)
Definition py_sleep (secs : Q) : result unit :=
  if Qle_bool 0 secs then Ok tt else Raise ValueError.

(** [a / b] on integers. *)
Definition py_truediv (a b : Z) : result Q :=
  if b =? 0 then Raise ZeroDivisionError else Ok (inject_Z a / inject_Z b)%Q.

(** ** The aggregate *)

(** [method_counts] is iterated at the end, so its insertion order is kept;
    [depth_sums] and [depth_counts] are only read by key. *)
Record aggregate : Type := Aggregate {
  method_counts : list (string * Z);
  depth_sums : gmap string Z;
  depth_counts : gmap string Z
}.

Definition no_observations : aggregate := Aggregate [] ∅ ∅.

(** [counter.update([k])] on a [Counter] kept in insertion order. *)
Fixpoint counter_update (k : string) (c : list (string * Z)) : list (string * Z) :=
  match c with
  | [] => [(k, 1)]
  | (k', n) :: rest =>
      if String.eqb k' k then (k', n + 1) :: rest
      else (k', n) :: counter_update k rest
  end.

(** [d[k]] on a [Counter] or a [defaultdict(int)]. *)
Definition get0 (d : gmap string Z) (k : string) : Z := default 0 (d !! k).

(** The body of [for method, depth, state in methods_with_depth]. *)
Definition observe (st : aggregate) (obs : string * nat * json) : aggregate :=
  let '(method, depth, _) := obs in
  {| method_counts := counter_update method (method_counts st);
     depth_sums := <[method := get0 (depth_sums st) method + Z.of_nat depth]> (depth_sums st);
     depth_counts := <[method := get0 (depth_counts st) method + 1]> (depth_counts st) |}.

(** ** The report *)

Definition record : Type := string * Z * Q.

Definition avg_depth (r : record) : Q := snd r.

(** The loop over [method_counts.items()]. *)
Fixpoint combine (items : list (string * Z)) (sums counts : gmap string Z)
    : result (list record) :=
  match items with
  | [] => Ok []
  | (method, count) :: rest =>
      avg ← py_truediv (get0 sums method) (get0 counts method);
      more ← combine rest sums counts;
      Ok ((method, count, avg) :: more)
  end.

(** [list.sort(key=lambda x: x[2])] is stable: rows with equal keys keep
    their order.  A stable sort is determined by that; insertion from the
    right, placing a row before the first row whose key is not smaller, is
    one. *)
Fixpoint insert_row (r : record) (sorted : list record) : list record :=
  match sorted with
  | [] => [r]
  | r' :: rest =>
      if Qle_bool (avg_depth r) (avg_depth r') then r :: sorted
      else r' :: insert_row r rest
  end.

Definition sort_by_avg_depth (rows : list record) : list record :=
  foldr insert_row [] rows.

(** ** [get_thread_dump], [report_estimated_time_remaining],
       [sample_thread_dumps] *)

Section Sampler.

Variable str_of_nonstring : json -> string.

(** [network url n] is what the [n]-th fetch of [url] meets (counting from
    zero); [random n] is the [n]-th value of [random.random()]. *)
Variable network : string -> nat -> response.
Variable random : nat -> Q.

Definition get_thread_dump (url : string) (call : nat) : logged json :=
  match network url call with
  | RequestFailed => log ErrorFetching;; mret JNull
  | InvalidJson => log ErrorParsing;; mret JNull
  | Body parsed => mret parsed
  end.

Definition report_estimated_time_remaining (samples : Z)
    (min_interval max_interval : Q) : logged unit :=
  let avg_sampling_interval := ((max_interval - min_interval) / 2 + min_interval)%Q in
  let estimated_time_in_seconds := (inject_Z samples * avg_sampling_interval)%Q in
  log (InfoEstimated estimated_time_in_seconds).

(** [random.uniform(a, b)] is [a + (b - a) * random()]. *)
Definition uniform (call : nat) (a b : Q) : Q := (a + (b - a) * random call)%Q.

(** Lines 136 to 144: fetch one dump and fold it into the aggregate. *)
Definition process_sample (url package_filter : string)
    (method_filter : option string) (st : aggregate) (sample : nat)
    : logged aggregate :=
  thread_dump ← get_thread_dump url sample;
  if truthy thread_dump then
    methods_with_depth ←
      lift (extract_methods_with_depth str_of_nonstring thread_dump
              package_filter method_filter);
    mret (foldl observe st methods_with_depth)
  else
    log (WarningSkipping (Z.of_nat sample + 1));; mret st.

(** One iteration of [for sample in range(samples)]. *)
Definition sample_step (url package_filter : string)
    (method_filter : option string) (samples : Z)
    (min_interval max_interval : Q) (st : aggregate) (sample : nat)
    : logged aggregate :=
  let interval := uniform sample min_interval max_interval in
  log (DebugWaiting interval (Z.of_nat sample + 1) samples);;
  lift (py_sleep interval);;
  process_sample url package_filter method_filter st sample.

Fixpoint sampling_loop (url package_filter : string)
    (method_filter : option string) (samples : Z)
    (min_interval max_interval : Q) (range : list nat) (st : aggregate)
    : logged aggregate :=
  match range with
  | [] => mret st
  | sample :: rest =>
      st' ← sample_step url package_filter method_filter samples
              min_interval max_interval st sample;
      sampling_loop url package_filter method_filter samples
        min_interval max_interval rest st'
  end.

Definition sample_thread_dumps (url package_filter : string)
    (method_filter : option string) (samples : Z)
    (min_interval max_interval : Q) : logged (list record) :=
  log (InfoStarted url);;
  report_estimated_time_remaining samples min_interval max_interval;;
  st ← sampling_loop url package_filter method_filter samples
         min_interval max_interval (seq 0 (Z.to_nat samples)) no_observations;
  combined_data ← lift (combine (method_counts st) (depth_sums st) (depth_counts st));
  log (InfoFinished url);;
  mret (sort_by_avg_depth combined_data).

End Sampler.

(** ** The data model of the specification *)

(** A stack frame, as the thread dump carries it: a JSON object whose
    ["className"] and ["methodName"] are strings. *)
Record StackFrame : Type := Frame {
  className : string;
  methodName : string
}.

Definition frame_view (j : json) : option StackFrame :=
  match getitem j "className", getitem j "methodName" with
  | Ok (JStr c), Ok (JStr m) => Some (Frame c m)
  | _, _ => None
  end.

(** The marker of the Stack Filter: absent, empty, or a pair of names. *)
Inductive marker : Type :=
| NoMarker
| EmptyMarker
| Marker (class_name method_name : string).

Fixpoint has_char (c : ascii) (s : string) : bool :=
  match s with
  | EmptyString => false
  | String c' s' => Ascii.eqb c' c || has_char c s'
  end.

(** The [method_filter] argument that stands for a marker. *)
Definition marker_string (mk : marker) : option string :=
  match mk with
  | NoMarker => None
  | EmptyMarker => Some ""
  | Marker c m => Some (c ++ "#" ++ m)
  end.

(** Names that the ['ClassName#MethodName'] format can carry. *)
Definition marker_wf (mk : marker) : Prop :=
  match mk with
  | Marker c m => has_char "#" c = false /\ has_char "#" m = false
  | _ => True
  end.

Definition is_marker_frame (c m : string) (frame : json) : bool :=
  match frame_view frame with
  | Some f => String.eqb (className f) c && String.eqb (methodName f) m
  | None => false
  end.

Fixpoint first_index {A : Type} (p : A -> bool) (l : list A) : option nat :=
  match l with
  | [] => None
  | x :: rest => if p x then Some 0%nat else S <$> first_index p rest
  end.

(** The Stack Filter as section 4.1 of the specification words it. *)
Definition filter_reference (stack : list json) (mk : marker) : list json :=
  match mk with
  | NoMarker | EmptyMarker => stack
  | Marker c m =>
      match first_index (is_marker_frame c m) stack with
      | Some i => drop i stack
      | None => []
      end
  end.

(** ** Notions used to state the properties *)

(** The thread's state is exactly ['RUNNABLE']. *)
Definition is_runnable (thread : json) : bool :=
  match getitem thread "threadState" with
  | Ok s => py_eq_str s "RUNNABLE"
  | Raise _ => false
  end.

(** [frame] is one of the frames of [thread]'s stack trace. *)
Definition frame_of_thread (thread frame : json) : Prop :=
  exists raw frames,
    getitem thread "stackTrace" = Ok raw /\ py_iter raw = Ok frames /\ frame ∈ frames.

(** The tuple's method name is the one [frame] carries. *)
Definition names_frame (str_of_nonstring : json -> string) (method : string)
    (frame : json) : Prop :=
  exists cls mth,
    getitem frame "className" = Ok cls /\ getitem frame "methodName" = Ok mth /\
    method = format_value str_of_nonstring cls ++ "." ++ format_value str_of_nonstring mth.

(** The fetch brought no body at all. *)
Definition fetch_fails (r : response) : bool :=
  match r with
  | Body _ => false
  | _ => true
  end.

(** What [get_thread_dump] logs for a fetch that failed. *)
Definition failure_event (r : response) : event :=
  match r with
  | InvalidJson => ErrorParsing
  | _ => ErrorFetching
  end.

(** What the log shows for a sample that is waited for and then skipped
    because its fetch failed. *)
Definition skipped_sample_events (random : nat -> Q)
    (network : string -> nat -> response)
    (url : string) (samples : Z) (min_interval max_interval : Q)
    (sample : nat) : list event :=
  [DebugWaiting (uniform random sample min_interval max_interval) (Z.of_nat sample + 1) samples;
   failure_event (network url sample);
   WarningSkipping (Z.of_nat sample + 1)].

(** Every method counted so far has one depth value per observation:
    [depth_counts] holds exactly the items of [method_counts], whose keys
    are distinct and whose counts are positive. *)
Definition agg_inv (st : aggregate) : Prop :=
  NoDup (method_counts st).*1 /\
  depth_counts st = list_to_map (method_counts st) /\
  Forall (fun kv => 1 <= kv.2) (method_counts st).

(** The report row of an item of [method_counts]. *)
Definition row_of (sums : gmap string Z) (item : string * Z) : record :=
  (item.1, item.2, (inject_Z (get0 sums item.1) / inject_Z item.2)%Q).

(** Ascending order of average depth. *)
Definition avg_le (r1 r2 : record) : Prop := (avg_depth r1 <= avg_depth r2)%Q.

(** ** Scenarios *)

Definition frame (c m : string) : json :=
  JObj [("className", JStr c); ("methodName", JStr m)].

Definition thread (state : string) (stack : list json) : json :=
  JObj [("threadState", JStr state); ("stackTrace", JArr stack)].

Definition dump (threads : list json) : json := JObj [("threads", JArr threads)].

(** A rendering of values that are not strings, for the scenarios: all
    their names are strings, so it is never consulted. *)
Definition no_other_values : json -> string := fun _ => "".

(** Scenarios A and B of the specification: the stack [A.foo, B.bar,
    A.baz], outermost frame first. *)
Definition scenario_stack : list json :=
  [frame "A" "foo"; frame "B" "bar"; frame "A" "baz"].

Definition scenario_dump : json := dump [thread "RUNNABLE" scenario_stack].

Definition mixed_dump : json :=
  dump [thread "BLOCKED" [frame "A" "lock"]; thread "RUNNABLE" scenario_stack].

(** Scenario C: the first and third fetch bring [X.y] at depths 2 and 4,
    the second fails. *)
Definition scenario_C_network (url : string) (call : nat) : response :=
  match call with
  | 0%nat =>
      Body (dump [thread "RUNNABLE" [frame "X" "y"; frame "Lib" "a"; frame "Lib" "b"]])
  | 1%nat => RequestFailed
  | _ =>
      Body (dump [thread "RUNNABLE"
              [frame "X" "y"; frame "Lib" "a"; frame "Lib" "b"; frame "Lib" "c";
               frame "Lib" "d"]])
  end.

Definition unreachable_network (url : string) (call : nat) : response := RequestFailed.

(** An endpoint that first answers with text and then with the JSON of
    another actuator endpoint. *)
Definition health_network (url : string) (call : nat) : response :=
  match call with
  | 0%nat => InvalidJson
  | _ => Body (JObj [("status", JStr "UP")])
  end.

Definition empty_object_network (url : string) (call : nat) : response :=
  match call with
  | 0%nat => Body (JObj [])
  | _ => Body scenario_dump
  end.

Definition failing_first_network (url : string) (call : nat) : response :=
  match call with
  | 0%nat => RequestFailed
  | _ => Body scenario_dump
  end.

Definition text_first_network (url : string) (call : nat) : response :=
  match call with
  | 0%nat => InvalidJson
  | _ => Body scenario_dump
  end.

Definition runnable_network (url : string) (call : nat) : response := Body scenario_dump.

Definition midpoint (call : nat) : Q := 1 # 2.

(** A dump with a thread that is parked and carries no stack trace. *)
Definition waiting_dump : json :=
  dump [JObj [("threadState", JStr "WAITING")]; thread "RUNNABLE" scenario_stack].

Definition example_config : list (string * json) :=
  [("url", JStr "http://localhost:8080/actuator/threaddump");
   ("package_filter", JStr "com.example");
   ("method_filter", JStr "");
   ("samples", JInt 10);
   ("min_interval", JInt 1);
   ("max_interval", JInt 3)].

(** A configuration that lacks ["method_filter"] and what follows it. *)
Definition incomplete_config : list (string * json) :=
  [("url", JStr "http://localhost:8080/actuator/threaddump");
   ("package_filter", JStr "com.example");
   ("output_file", JStr "report.csv")].

(** ** [write_combined_report] *)

(** [round(x)] with one argument: the nearest integer, a tie going to the
    even neighbour. *)
Definition py_round (q : Q) : Z :=
  let n := Qnum q in
  let d := Zpos (Qden q) in
  let below := n / d in
  let twice_rest := 2 * (n mod d) in
  if twice_rest <? d then below
  else if d <? twice_rest then below + 1
  else if Z.even below then below else below + 1.

(** What is handed to [csv.writer.writerow]: strings and integers. *)
Inductive cell : Type :=
| CStr (s : string)
| CInt (n : Z).

(** The file the report is written to: its name and the rows passed to the
    CSV writer, in order. *)
Record csv_file : Type := CsvFile {
  file_name : string;
  file_rows : list (list cell)
}.

Definition report_row (r : record) : list cell :=
  let '(method, count, avg) := r in
  [CStr method; CInt count; CInt (py_round avg)].

Definition write_combined_report (combined_data : list record) (filename : string)
    : csv_file :=
  {| file_name := filename;
     file_rows :=
       [CStr "Method"; CStr "Count"; CStr "Average Depth"]
       :: map report_row combined_data |}.

(** ** Reading the configuration (the main block) *)

(** The values taken from the configuration, as JSON delivers them. *)
Record settings : Type := Settings {
  cfg_url : json;
  cfg_package_filter : json;
  cfg_method_filter : json;
  cfg_samples : json;
  cfg_min_interval : json;
  cfg_max_interval : json;
  cfg_output_file : json
}.

(** [v.get(k, d)]. *)
Definition py_get (v : json) (k : string) (d : json) : result json :=
  match v with
  | JObj kvs => Ok (default d (assoc k kvs))
  | _ => Raise AttributeError
  end.

(** Lines 181 to 187; [args_output] is [args.output], [None] when the
    option is not given. *)
Definition read_config (args_output : option string) (config : json)
    : result settings :=
  url ← getitem config "url";
  package_filter ← getitem config "package_filter";
  method_filter ← getitem config "method_filter";
  samples ← getitem config "samples";
  min_interval ← getitem config "min_interval";
  max_interval ← getitem config "max_interval";
  output_file ←
    match args_output with
    | Some out =>
        if String.eqb out "" then py_get config "output_file" (JStr "method_counts.csv")
        else Ok (JStr out)
    | None => py_get config "output_file" (JStr "method_counts.csv")
    end;
  Ok (Settings url package_filter method_filter samples min_interval max_interval
        output_file).

(** ** Notions used to state further properties *)

Fixpoint count_char (c : ascii) (s : string) : nat :=
  match s with
  | EmptyString => 0%nat
  | String c' s' => ((if Ascii.eqb c' c then 1 else 0) + count_char c s')%nat
  end.

(** How often [method] is observed, and the sum of the depths it is
    observed at. *)
Fixpoint occurrences (method : string) (obs : list (string * nat * json)) : Z :=
  match obs with
  | [] => 0
  | (method', _, _) :: rest =>
      (if String.eqb method' method then 1 else 0) + occurrences method rest
  end.

Fixpoint depth_total (method : string) (obs : list (string * nat * json)) : Z :=
  match obs with
  | [] => 0
  | (method', depth, _) :: rest =>
      (if String.eqb method' method then Z.of_nat depth else 0) + depth_total method rest
  end.

(** The tuples that sample number [sample] contributes: those the
    extractor returns for a truthy body, none otherwise. *)
Definition sample_observations (str_of_nonstring : json -> string)
    (network : string -> nat -> response) (url package_filter : string)
    (method_filter : option string) (sample : nat) : list (string * nat * json) :=
  match network url sample with
  | Body parsed =>
      if truthy parsed then
        match extract_methods_with_depth str_of_nonstring parsed package_filter
                method_filter with
        | Ok methods_with_depth => methods_with_depth
        | Raise _ => []
        end
      else []
  | _ => []
  end.

(** All tuples of a run of [samples] samples, in order. *)
Definition run_observations (str_of_nonstring : json -> string)
    (network : string -> nat -> response) (url package_filter : string)
    (method_filter : option string) (samples : Z) : list (string * nat * json) :=
  flat_map (sample_observations str_of_nonstring network url package_filter method_filter)
    (seq 0 (Z.to_nat samples)).

(** What the loop logs: waits, failures and skips. *)
Definition loop_event (random : nat -> Q) (lo hi : Q) (samples : Z) (range : list nat) (ev : event) : Prop :=
  match ev with
  | DebugWaiting interval sample total =>
      total = samples /\
      exists i, i ∈ range /\ sample = Z.of_nat i + 1 /\ interval = uniform random i lo hi
  | ErrorFetching | ErrorParsing => True
  | WarningSkipping sample => exists i, i ∈ range /\ sample = Z.of_nat i + 1
  | _ => False
  end.

(** The keys the main block reads with [config[...]], in that order. *)
Definition required_keys : list string :=
  ["url"; "package_filter"; "method_filter"; "samples"; "min_interval"; "max_interval"].

(** The file name the main block writes to. *)
Definition chosen_output_file (args_output : option string)
    (fields : list (string * json)) : json :=
  match args_output with
  | Some out =>
      if String.eqb out "" then default (JStr "method_counts.csv") (assoc "output_file" fields)
      else JStr out
  | None => default (JStr "method_counts.csv") (assoc "output_file" fields)
  end.

(** Rows whose average depth equals [q]. *)
Definition with_avg (q : Q) (rows : list record) : list record :=
  filter (fun r => Qeq_bool (avg_depth r) q = true) rows.

(** A thread dump of the expected shape: an object whose ["threads"] is a
    list of objects with a string ["threadState"] and a list
    ["stackTrace"] of frames. *)
Definition thread_wf (thread : json) : Prop :=
  exists state frames,
    getitem thread "threadState" = Ok (JStr state) /\
    getitem thread "stackTrace" = Ok (JArr frames) /\
    Forall (fun j => is_Some (frame_view j)) frames.

Definition dump_wf (thread_dump : json) : Prop :=
  exists threads,
    getitem thread_dump "threads" = Ok (JArr threads) /\ Forall thread_wf threads.

(** The exceptions the extractor can end with. *)
Definition extractor_exn (method_filter : option string) (e : exn) : Prop :=
  e = TypeError \/ e = AttributeError \/
  (exists k, e = KeyError k /\
     k ∈ ["threads"; "threadState"; "stackTrace"; "className"; "methodName"]) \/
  (e = ValueError /\
   exists mf, method_filter = Some mf /\ mf <> "" /\ count_char "#" mf <> 1%nat).

(** ** Strings *)

Lemma split_on_no_sep (sep : ascii) (s : string) :
  has_char sep s = false -> split_on sep s = [s].
Proof.
  induction s as [|c s IH]; simpl; [reflexivity|].
  intros H. apply orb_false_iff in H as [Hc Hs].
  rewrite Hc, (IH Hs). reflexivity.
Qed.

Lemma split_on_pair (sep : ascii) (c m : string) :
  has_char sep c = false -> has_char sep m = false ->
  split_on sep (c ++ String sep m) = [c; m].
Proof.
  intros Hc Hm. induction c as [|a c IH]; simpl in *.
  - rewrite Ascii.eqb_refl, (split_on_no_sep _ _ Hm). reflexivity.
  - apply orb_false_iff in Hc as [Ha Hc].
    rewrite Ha, (IH Hc). reflexivity.
Qed.

Lemma app_sep_nonempty (sep : ascii) (c m : string) :
  String.eqb (c ++ String sep m) "" = false.
Proof. destruct c; reflexivity. Qed.

(** ** The Stack Filter *)

Lemma frame_view_Some (j : json) (f : StackFrame) :
  frame_view j = Some f ->
  getitem j "className" = Ok (JStr (className f)) /\
  getitem j "methodName" = Ok (JStr (methodName f)).
Proof.
  unfold frame_view.
  destruct (getitem j "className") as [[]|]; try discriminate.
  destruct (getitem j "methodName") as [[]|]; try discriminate.
  intros [= <-]. split; reflexivity.
Qed.

Lemma find_start_depth_first_index (c m : string) (stack : list json) (d : nat) :
  Forall (fun j => is_Some (frame_view j)) stack ->
  find_start_depth c m stack d =
    Ok ((fun i => (d + i)%nat) <$> first_index (is_marker_frame c m) stack).
Proof.
  intros Hwf. revert d.
  induction Hwf as [|j stack [f Hf] _ IH]; intros d; simpl; [reflexivity|].
  unfold is_marker_frame. rewrite Hf.
  destruct (frame_view_Some _ _ Hf) as [Hc Hm]. rewrite Hc. simpl.
  destruct (String.eqb (className f) c); simpl.
  - rewrite Hm. simpl.
    destruct (String.eqb (methodName f) m); simpl.
    + f_equal. f_equal. lia.
    + rewrite IH. f_equal.
      destruct (first_index _ stack); simpl; f_equal; lia.
  - rewrite IH. f_equal.
    destruct (first_index _ stack); simpl; f_equal; lia.
Qed.

(** C4.  On a stack of frames, and for a marker that the
    ['ClassName#MethodName'] format can carry, [filter_stack_trace] is the
    reference Stack Filter: the input itself when the marker is absent or
    empty, the suffix [stack[i:]] from the first frame [i] that has the
    marker's class and method names, and the empty sequence when no frame
    has them. *)
Theorem filter_stack_trace_refines_reference (stack : list json) (mk : marker) :
  Forall (fun j => is_Some (frame_view j)) stack ->
  marker_wf mk ->
  filter_stack_trace stack (marker_string mk) = Ok (filter_reference stack mk).
Proof.
  intros Hstack Hmk. destruct mk as [| |c m]; simpl; try reflexivity.
  destruct Hmk as [Hc Hm].
  change (c ++ "#" ++ m) with (c ++ String "#" m).
  rewrite app_sep_nonempty, (split_on_pair _ _ _ Hc Hm).
  rewrite (find_start_depth_first_index _ _ _ _ Hstack). simpl.
  destruct (first_index _ stack); reflexivity.
Qed.

(** ** The error monad *)

Lemma bind_Ok_inv {A B : Type} (m : result A) (k : A -> result B) (b : B) :
  m ≫= k = Ok b -> exists a, m = Ok a /\ k a = Ok b.
Proof. destruct m as [a|e]; simpl; [eauto | discriminate]. Qed.

Lemma bind_Ok {A B : Type} (a : A) (k : A -> result B) : Ok a ≫= k = k a.
Proof. reflexivity. Qed.

Tactic Notation "bind_inv" hyp(H) "as" ident(a) ident(Ha) :=
  apply bind_Ok_inv in H as (a & Ha & H).

Lemma py_eq_str_true (v : json) (s : string) :
  py_eq_str v s = true -> v = JStr s.
Proof.
  destruct v; simpl; try discriminate.
  intros H. apply String.eqb_eq in H. congruence.
Qed.

(** ** The Method Extractor *)

Lemma filter_stack_trace_incl (stack out : list json) (mf : option string) :
  filter_stack_trace stack mf = Ok out -> out ⊆ stack.
Proof.
  unfold filter_stack_trace. intros H frame Hin.
  destruct mf as [mf|]; [|congruence].
  destruct (String.eqb mf ""); [congruence|].
  destruct (split_on "#" mf) as [|c [|m [|]]]; try discriminate.
  bind_inv H as start Hstart. destruct start as [d|]; injection H as <-.
  - eapply subseteq_drop, Hin.
  - inversion Hin.
Qed.

Section ExtractorProperties.

Variable str_of_nonstring : json -> string.

Lemma methods_of_frames_origin (pf : string) (st : json) (frames : list json)
    (d : nat) (out : list (string * nat * json)) :
  methods_of_frames str_of_nonstring pf st frames d = Ok out ->
  forall method depth state, (method, depth, state) ∈ out ->
    state = st /\ exists frame, frame ∈ frames /\ names_frame str_of_nonstring method frame.
Proof.
  revert d out. induction frames as [|frame frames IH]; intros d out H; simpl in H.
  - injection H as <-. intros ??? Hin. inversion Hin.
  - bind_inv H as cls Hcls. bind_inv H as sel Hsel. destruct sel.
    + bind_inv H as cls' Hcls'. bind_inv H as mth Hmth. bind_inv H as more Hmore.
      injection H as <-.
      intros method depth state Hin. apply elem_of_cons in Hin as [Heq|Hin].
      * injection Heq as -> -> ->. split; [reflexivity|].
        exists frame. split; [left|]. exists cls', mth. auto.
      * destruct (IH _ _ Hmore _ _ _ Hin) as (? & frame' & ? & ?).
        split; [assumption|]. exists frame'. split; [right|]; assumption.
    + intros method depth state Hin.
      destruct (IH _ _ H _ _ _ Hin) as (? & frame' & ? & ?).
      split; [assumption|]. exists frame'. split; [right|]; assumption.
Qed.

Lemma methods_of_thread_origin (pf : string) (mf : option string)
    (thread : json) (out : list (string * nat * json)) :
  methods_of_thread str_of_nonstring pf mf thread = Ok out ->
  forall method depth state, (method, depth, state) ∈ out ->
    is_runnable thread = true /\ state = JStr "RUNNABLE" /\
    exists frame, frame_of_thread thread frame /\ names_frame str_of_nonstring method frame.
Proof.
  unfold methods_of_thread. intros H method depth state Hin.
  bind_inv H as ts Hts. destruct (py_eq_str ts "RUNNABLE") eqn:Hst.
  - bind_inv H as raw Hraw. bind_inv H as reversed Hrev. bind_inv H as filtered Hfil.
    unfold py_reversed in Hrev. bind_inv Hrev as frames Hframes. injection Hrev as <-.
    destruct (methods_of_frames_origin _ _ _ _ _ H _ _ _ Hin) as (-> & frame & Hf & Hn).
    split; [unfold is_runnable; rewrite Hts; exact Hst|].
    split; [apply py_eq_str_true, Hst|].
    exists frame. split; [|exact Hn].
    exists raw, frames. repeat split; try assumption.
    apply (filter_stack_trace_incl _ _ _ Hfil) in Hf.
    apply list_elem_of_In, in_rev, list_elem_of_In, Hf.
  - injection H as <-. inversion Hin.
Qed.

Lemma methods_of_thread_not_runnable (pf : string) (mf : option string)
    (thread : json) (out : list (string * nat * json)) :
  methods_of_thread str_of_nonstring pf mf thread = Ok out ->
  is_runnable thread = false -> out = [].
Proof.
  unfold methods_of_thread, is_runnable. intros H Hr.
  bind_inv H as ts Hts. rewrite Hts in Hr. rewrite Hr in H. congruence.
Qed.

Lemma methods_of_threads_runnable_only (pf : string) (mf : option string)
    (threads : list json) (out : list (string * nat * json)) :
  methods_of_threads str_of_nonstring pf mf threads = Ok out ->
  methods_of_threads str_of_nonstring pf mf (filter (fun t => is_runnable t = true) threads) = Ok out.
Proof.
  revert out. induction threads as [|thread threads IH]; intros out H; [exact H|].
  simpl in H. bind_inv H as here Hhere. bind_inv H as more Hmore. injection H as <-.
  rewrite filter_cons. destruct (decide (is_runnable thread = true)) as [Hr|Hr].
  - simpl. rewrite Hhere, (IH _ Hmore). reflexivity.
  - apply not_true_is_false in Hr.
    rewrite (methods_of_thread_not_runnable _ _ _ _ Hhere Hr). apply IH, Hmore.
Qed.

Lemma methods_of_threads_origin (pf : string) (mf : option string)
    (threads : list json) (out : list (string * nat * json)) :
  methods_of_threads str_of_nonstring pf mf threads = Ok out ->
  forall method depth state, (method, depth, state) ∈ out ->
    state = JStr "RUNNABLE" /\
    exists thread frame, thread ∈ threads /\ is_runnable thread = true /\
      frame_of_thread thread frame /\ names_frame str_of_nonstring method frame.
Proof.
  revert out. induction threads as [|thread threads IH]; intros out H; simpl in H.
  - injection H as <-. intros ??? Hin. inversion Hin.
  - bind_inv H as here Hhere. bind_inv H as more Hmore. injection H as <-.
    intros method depth state Hin. apply elem_of_app in Hin as [Hin|Hin].
    + destruct (methods_of_thread_origin _ _ _ _ Hhere _ _ _ Hin) as (Hr & Hs & frame & Hf & Hn).
      split; [exact Hs|]. exists thread, frame. repeat split; try assumption. left.
    + destruct (IH _ Hmore _ _ _ Hin) as (Hs & thread' & frame & Ht & Hr & Hf & Hn).
      split; [exact Hs|]. exists thread', frame. repeat split; try assumption.
      right. exact Ht.
Qed.

(** C7.  Whenever the Method Extractor returns, every tuple of its output
    carries the state RUNNABLE and comes from a frame of a thread of the
    dump whose state is exactly ['RUNNABLE'], and the output is the one
    obtained from the dump with all other threads removed: no tuple
    derives from a frame of a thread in another state. *)
Theorem extract_only_runnable_threads (thread_dump : json) (threads : list json)
    (package_filter : string) (method_filter : option string)
    (out : list (string * nat * json)) :
  getitem thread_dump "threads" = Ok (JArr threads) ->
  extract_methods_with_depth str_of_nonstring thread_dump package_filter method_filter = Ok out ->
  (forall method depth state, (method, depth, state) ∈ out ->
     state = JStr "RUNNABLE" /\
     exists thread frame, thread ∈ threads /\ is_runnable thread = true /\
       frame_of_thread thread frame /\ names_frame str_of_nonstring method frame) /\
  extract_methods_with_depth str_of_nonstring
    (JObj [("threads", JArr (filter (fun t => is_runnable t = true) threads))])
    package_filter method_filter = Ok out.
Proof.
  unfold extract_methods_with_depth. intros Hthreads H.
  rewrite Hthreads in H. simpl in H. split.
  - apply (methods_of_threads_origin _ _ _ _ H).
  - simpl. apply methods_of_threads_runnable_only, H.
Qed.

End ExtractorProperties.

(** ** The logging monad *)

Lemma outcome_bind {A B : Type} (m : logged A) (k : A -> logged B) :
  outcome (m ≫= k) =
    match outcome m with
    | Ok a => outcome (k a)
    | Raise e => Raise e
    end.
Proof. unfold mbind, logged_bind. destruct (outcome m); reflexivity. Qed.

Lemma outcome_bind_Ok_inv {A B : Type} (m : logged A) (k : A -> logged B) (b : B) :
  outcome (m ≫= k) = Ok b -> exists a, outcome m = Ok a /\ outcome (k a) = Ok b.
Proof. rewrite outcome_bind. destruct (outcome m); [eauto | discriminate]. Qed.

Lemma bind_Logged_Ok {A B : Type} (evs : list event) (a : A) (k : A -> logged B) :
  Logged evs (Ok a) ≫= k = Logged (evs ++ events (k a)) (outcome (k a)).
Proof. reflexivity. Qed.

(** ** Samples that bring no data *)

Section SamplerProperties.

Variable str_of_nonstring : json -> string.
Variable random : nat -> Q.

Lemma process_sample_failed (network : string -> nat -> response)
    (url pf : string) (mf : option string) (st : aggregate) (sample : nat) :
  fetch_fails (network url sample) = true ->
  process_sample str_of_nonstring network url pf mf st sample =
    Logged [failure_event (network url sample); WarningSkipping (Z.of_nat sample + 1)] (Ok st).
Proof.
  unfold process_sample, get_thread_dump.
  destruct (network url sample); simpl; intros H; try discriminate; reflexivity.
Qed.

Lemma process_sample_falsy (network : string -> nat -> response)
    (url pf : string) (mf : option string) (st : aggregate) (sample : nat)
    (parsed : json) :
  network url sample = Body parsed -> truthy parsed = false ->
  process_sample str_of_nonstring network url pf mf st sample =
    Logged [WarningSkipping (Z.of_nat sample + 1)] (Ok st).
Proof.
  unfold process_sample, get_thread_dump. intros -> Hfalsy.
  unfold mret, logged_ret. rewrite bind_Logged_Ok, Hfalsy. reflexivity.
Qed.

Lemma uniform_nonneg (call : nat) (a b : Q) :
  (0 <= a)%Q -> (a <= b)%Q -> (0 <= random call)%Q ->
  py_sleep (uniform random call a b) = Ok tt.
Proof.
  intros Ha Hab Hr. unfold py_sleep, uniform.
  assert (H : (0 <= a + (b - a) * random call)%Q).
  { rewrite <- (Qplus_0_r 0) at 1. apply Qplus_le_compat; [exact Ha|].
    apply Qmult_le_0_compat; [|exact Hr].
    unfold Qminus. rewrite <- (Qplus_opp_r a). apply Qplus_le_compat; [exact Hab|].
    apply Qle_refl. }
  apply Qle_bool_iff in H. rewrite H. reflexivity.
Qed.

Lemma sampling_loop_all_failed (network : string -> nat -> response)
    (url pf : string) (mf : option string) (samples : Z) (lo hi : Q)
    (range : list nat) (st : aggregate) :
  (0 <= lo)%Q -> (lo <= hi)%Q ->
  (forall i, i ∈ range -> (0 <= random i)%Q) ->
  (forall i, i ∈ range -> fetch_fails (network url i) = true) ->
  sampling_loop str_of_nonstring network random url pf mf samples lo hi range st =
    Logged (flat_map (skipped_sample_events random network url samples lo hi) range) (Ok st).
Proof.
  intros Hlo Hhi Hrandom Hfails.
  induction range as [|i range IH]; [reflexivity|].
  simpl. unfold sample_step.
  rewrite (uniform_nonneg i lo hi Hlo Hhi) by (apply Hrandom; left).
  rewrite process_sample_failed by (apply Hfails; left).
  unfold logged_bind; simpl.
  rewrite IH; [reflexivity| |]; intros j Hj; [apply Hrandom|apply Hfails]; right; exact Hj.
Qed.

Lemma sample_thread_dumps_all_failed (network : string -> nat -> response)
    (url pf : string) (mf : option string) (samples : Z) (lo hi : Q) :
  (0 <= lo)%Q -> (lo <= hi)%Q ->
  (forall i, (i < Z.to_nat samples)%nat -> (0 <= random i)%Q) ->
  (forall i, (i < Z.to_nat samples)%nat -> fetch_fails (network url i) = true) ->
  sample_thread_dumps str_of_nonstring network random url pf mf samples lo hi =
    Logged
      ([InfoStarted url; InfoEstimated (inject_Z samples * ((hi - lo) / 2 + lo))]
       ++ flat_map (skipped_sample_events random network url samples lo hi)
            (seq 0 (Z.to_nat samples))
       ++ [InfoFinished url])
      (Ok []).
Proof.
  intros Hlo Hhi Hrandom Hfails. unfold sample_thread_dumps.
  rewrite sampling_loop_all_failed; try assumption.
  - reflexivity.
  - intros i Hi. apply Hrandom. apply elem_of_seq in Hi. lia.
  - intros i Hi. apply Hfails. apply elem_of_seq in Hi. lia.
Qed.

(** C9.  When the interval bounds are as the contract requires and every
    fetch of the run fails, each failed iteration leaves the aggregate as
    it was, the loop goes through the whole sample budget (the log shows
    the wait, the failure and the skip of every sample), and the sampler
    returns the empty sequence of records without raising. *)
Theorem no_successful_sample_gives_empty_report
    (network : string -> nat -> response) (url package_filter : string)
    (method_filter : option string) (samples : Z) (min_interval max_interval : Q) :
  (0 <= min_interval)%Q -> (min_interval <= max_interval)%Q ->
  (forall i, (i < Z.to_nat samples)%nat -> (0 <= random i)%Q) ->
  (forall i, (i < Z.to_nat samples)%nat -> fetch_fails (network url i) = true) ->
  (forall st i, (i < Z.to_nat samples)%nat ->
     outcome (process_sample str_of_nonstring network url package_filter
                method_filter st i) = Ok st) /\
  sample_thread_dumps str_of_nonstring network random url package_filter
      method_filter samples min_interval max_interval =
    Logged
      ([InfoStarted url;
        InfoEstimated (inject_Z samples * ((max_interval - min_interval) / 2 + min_interval))]
       ++ flat_map (skipped_sample_events random network url samples min_interval max_interval)
            (seq 0 (Z.to_nat samples))
       ++ [InfoFinished url])
      (Ok []).
Proof.
  intros Hlo Hhi Hrandom Hfails. split.
  - intros st i Hi. rewrite process_sample_failed by (apply Hfails, Hi). reflexivity.
  - apply sample_thread_dumps_all_failed; assumption.
Qed.

(** ** The aggregate invariant *)

Lemma elem_of_counter_update_fst (k x : string) (c : list (string * Z)) :
  x ∈ (counter_update k c).*1 <-> x = k \/ x ∈ c.*1.
Proof.
  induction c as [|[k' n] c IH]; simpl.
  - rewrite list_elem_of_singleton. split; [left; assumption|].
    intros [H|H]; [assumption | inversion H].
  - destruct (String.eqb_spec k' k) as [->|Hne]; simpl.
    + rewrite elem_of_cons. tauto.
    + rewrite !elem_of_cons, IH. tauto.
Qed.

Lemma counter_update_NoDup (k : string) (c : list (string * Z)) :
  NoDup c.*1 -> NoDup (counter_update k c).*1.
Proof.
  induction c as [|[k' n] c IH]; simpl; intros Hnd.
  - apply NoDup_singleton.
  - apply NoDup_cons in Hnd as [Hnotin Hnd].
    destruct (String.eqb_spec k' k) as [->|Hne]; simpl.
    + apply NoDup_cons. split; assumption.
    + apply NoDup_cons. split; [|apply IH, Hnd].
      rewrite elem_of_counter_update_fst. intros [->|Hin]; [apply Hne; reflexivity|].
      apply Hnotin, Hin.
Qed.

Lemma counter_update_to_map (k : string) (c : list (string * Z)) :
  (list_to_map (counter_update k c) : gmap string Z) =
    <[k := get0 (list_to_map c) k + 1]> (list_to_map c).
Proof.
  unfold get0. induction c as [|[k' n] c IH]; simpl.
  - rewrite lookup_empty. reflexivity.
  - destruct (String.eqb_spec k' k) as [->|Hne]; simpl.
    + rewrite lookup_insert_eq, insert_insert_eq. reflexivity.
    + rewrite IH, lookup_insert_ne by exact Hne.
      apply insert_insert_ne. congruence.
Qed.

Lemma counter_update_positive (k : string) (c : list (string * Z)) :
  Forall (fun kv => 1 <= kv.2) c ->
  Forall (fun kv => 1 <= kv.2) (counter_update k c).
Proof.
  induction 1 as [|[k' n] c Hn Hc IH]; simpl.
  - constructor; [simpl; lia | constructor].
  - simpl in Hn. destruct (String.eqb k' k); constructor; simpl; try assumption; lia.
Qed.

Lemma observe_inv (st : aggregate) (obs : string * nat * json) :
  agg_inv st -> agg_inv (observe st obs).
Proof.
  destruct obs as [[method depth] state]. intros (Hnd & Hcounts & Hpos).
  repeat split; simpl.
  - apply counter_update_NoDup, Hnd.
  - rewrite counter_update_to_map, <- Hcounts. reflexivity.
  - apply counter_update_positive, Hpos.
Qed.

Lemma foldl_observe_inv (obs : list (string * nat * json)) (st : aggregate) :
  agg_inv st -> agg_inv (foldl observe st obs).
Proof.
  revert st. induction obs as [|o obs IH]; intros st Hinv; simpl; [exact Hinv|].
  apply IH, observe_inv, Hinv.
Qed.

Lemma no_observations_inv : agg_inv no_observations.
Proof. repeat split; simpl; constructor. Qed.

Lemma combine_rows (items : list (string * Z)) (sums counts : gmap string Z) :
  Forall (fun kv => 1 <= kv.2 /\ get0 counts kv.1 = kv.2) items ->
  combine items sums counts = Ok (map (row_of sums) items).
Proof.
  induction 1 as [|[method count] items [Hpos Hcount] _ IH]; simpl; [reflexivity|].
  simpl in Hpos, Hcount. unfold py_truediv. rewrite Hcount.
  destruct (Z.eqb_spec count 0) as [->|_]; [lia|].
  simpl. rewrite IH. reflexivity.
Qed.

Lemma agg_inv_items (st : aggregate) :
  agg_inv st ->
  Forall (fun kv => 1 <= kv.2 /\ get0 (depth_counts st) kv.1 = kv.2) (method_counts st).
Proof.
  intros (Hnd & Hcounts & Hpos). apply Forall_forall. intros [method count] Hin.
  split; [apply (proj1 (Forall_forall _ _) Hpos _ Hin)|].
  simpl. unfold get0. rewrite Hcounts.
  apply (elem_of_list_to_map (M:=gmap string)) in Hin; [|exact Hnd].
  rewrite Hin. reflexivity.
Qed.

Lemma process_sample_inv (network : string -> nat -> response)
    (url pf : string) (mf : option string) (st st' : aggregate) (sample : nat) :
  agg_inv st ->
  outcome (process_sample str_of_nonstring network url pf mf st sample) = Ok st' ->
  agg_inv st'.
Proof.
  intros Hinv H. unfold process_sample in H.
  apply outcome_bind_Ok_inv in H as (thread_dump & _ & H).
  destruct (truthy thread_dump).
  - apply outcome_bind_Ok_inv in H as (methods & _ & H).
    injection H as <-. apply foldl_observe_inv, Hinv.
  - apply outcome_bind_Ok_inv in H as (_ & _ & H).
    injection H as <-. exact Hinv.
Qed.

Lemma sample_step_inv (network : string -> nat -> response)
    (url pf : string) (mf : option string) (samples : Z) (lo hi : Q)
    (st st' : aggregate) (sample : nat) :
  agg_inv st ->
  outcome (sample_step str_of_nonstring network random url pf mf samples lo hi st sample) = Ok st' ->
  agg_inv st'.
Proof.
  intros Hinv H. unfold sample_step in H.
  apply outcome_bind_Ok_inv in H as (_ & _ & H).
  apply outcome_bind_Ok_inv in H as (_ & _ & H).
  eapply process_sample_inv; eassumption.
Qed.

Lemma sampling_loop_inv (network : string -> nat -> response)
    (url pf : string) (mf : option string) (samples : Z) (lo hi : Q)
    (range : list nat) (st st' : aggregate) :
  agg_inv st ->
  outcome (sampling_loop str_of_nonstring network random url pf mf samples lo hi range st) = Ok st' ->
  agg_inv st'.
Proof.
  revert st. induction range as [|i range IH]; intros st Hinv H; cbn [sampling_loop] in H.
  - injection H as <-. exact Hinv.
  - apply outcome_bind_Ok_inv in H as (st1 & Hstep & H).
    eapply IH; [|exact H]. eapply sample_step_inv; eassumption.
Qed.

(** A run that returns went through the loop, the combination and the sort. *)
Lemma sample_thread_dumps_Ok_inv (network : string -> nat -> response)
    (url pf : string) (mf : option string) (samples : Z) (lo hi : Q)
    (recs : list record) :
  outcome (sample_thread_dumps str_of_nonstring network random url pf mf samples lo hi) = Ok recs ->
  exists st combined,
    outcome (sampling_loop str_of_nonstring network random url pf mf samples lo hi
               (seq 0 (Z.to_nat samples)) no_observations) = Ok st /\
    combine (method_counts st) (depth_sums st) (depth_counts st) = Ok combined /\
    recs = sort_by_avg_depth combined.
Proof.
  intros H. unfold sample_thread_dumps in H.
  apply outcome_bind_Ok_inv in H as (_ & _ & H).
  apply outcome_bind_Ok_inv in H as (_ & _ & H).
  apply outcome_bind_Ok_inv in H as (st & Hloop & H).
  apply outcome_bind_Ok_inv in H as (combined & Hcombine & H).
  apply outcome_bind_Ok_inv in H as (_ & _ & H).
  injection H as <-. exists st, combined. auto.
Qed.

(** ** The sort *)

Lemma insert_row_Permutation (r : record) (rows : list record) :
  Permutation (insert_row r rows) (r :: rows).
Proof.
  induction rows as [|r' rows IH]; simpl; [reflexivity|].
  destruct (Qle_bool (avg_depth r) (avg_depth r')); [reflexivity|].
  rewrite IH. apply perm_swap.
Qed.

Lemma sort_by_avg_depth_Permutation (rows : list record) :
  Permutation (sort_by_avg_depth rows) rows.
Proof.
  induction rows as [|r rows IH]; simpl; [reflexivity|].
  rewrite insert_row_Permutation, IH. reflexivity.
Qed.

Lemma insert_row_Sorted (r : record) (rows : list record) :
  Sorted avg_le rows -> Sorted avg_le (insert_row r rows).
Proof.
  induction 1 as [|r' rows Hsorted IH Hhd]; simpl.
  - repeat constructor.
  - destruct (Qle_bool (avg_depth r) (avg_depth r')) eqn:Hle.
    + apply Qle_bool_iff in Hle. repeat constructor; assumption.
    + assert (Hge : avg_le r' r).
      { apply Qlt_le_weak, Qnot_le_lt. intros Hc.
        apply Qle_bool_iff in Hc. congruence. }
      constructor; [exact IH|].
      destruct Hhd as [|r'' rows Hr'']; simpl.
      * constructor. exact Hge.
      * destruct (Qle_bool (avg_depth r) (avg_depth r'')); constructor; assumption.
Qed.

Lemma sort_by_avg_depth_Sorted (rows : list record) :
  Sorted avg_le (sort_by_avg_depth rows).
Proof.
  induction rows as [|r rows IH]; simpl; [constructor|].
  apply insert_row_Sorted, IH.
Qed.

Lemma Sorted_adjacent {A : Type} (R : A -> A -> Prop) (l : list A) (j : nat) (a b : A) :
  Sorted R l -> l !! j = Some a -> l !! S j = Some b -> R a b.
Proof.
  intros Hsorted. revert j. induction Hsorted as [|x l _ IH Hhd]; intros j Ha Hb.
  - discriminate.
  - destruct j as [|j]; simpl in *.
    + injection Ha as ->. destruct Hhd as [|y l Hxy]; [discriminate|].
      simpl in Hb. injection Hb as ->. exact Hxy.
    + eapply IH; eassumption.
Qed.

(** C6.  The records a completed run returns are in ascending order of
    average depth: each record's average depth is at most that of the
    record after it. *)
Theorem report_sorted_by_average_depth (network : string -> nat -> response)
    (url package_filter : string) (method_filter : option string) (samples : Z)
    (min_interval max_interval : Q) (recs : list record) :
  outcome (sample_thread_dumps str_of_nonstring network random url package_filter
             method_filter samples min_interval max_interval) = Ok recs ->
  forall (j : nat) (r r' : record),
    recs !! j = Some r -> recs !! S j = Some r' ->
    (avg_depth r <= avg_depth r')%Q.
Proof.
  intros H j r r' Hr Hr'.
  apply sample_thread_dumps_Ok_inv in H as (st & combined & _ & _ & ->).
  exact (Sorted_adjacent avg_le _ j r r' (sort_by_avg_depth_Sorted combined) Hr Hr').
Qed.

(** C5.  Whenever the sampling loop completes, deriving the averages does
    not raise: no division is by zero.  Every record [(method, count,
    avg)] of a completed run has [count >= 1], its method's depth-count
    equals [count], and [avg] is the method's depth-sum divided by
    [count]. *)
Theorem report_records_well_formed (network : string -> nat -> response)
    (url package_filter : string) (method_filter : option string) (samples : Z)
    (min_interval max_interval : Q) :
  (forall st,
     outcome (sampling_loop str_of_nonstring network random url package_filter
                method_filter samples min_interval max_interval
                (seq 0 (Z.to_nat samples)) no_observations) = Ok st ->
     exists combined,
       combine (method_counts st) (depth_sums st) (depth_counts st) = Ok combined) /\
  (forall recs,
     outcome (sample_thread_dumps str_of_nonstring network random url package_filter
                method_filter samples min_interval max_interval) = Ok recs ->
     exists st,
       outcome (sampling_loop str_of_nonstring network random url package_filter
                  method_filter samples min_interval max_interval
                  (seq 0 (Z.to_nat samples)) no_observations) = Ok st /\
       forall method count avg, (method, count, avg) ∈ recs ->
         1 <= count /\
         get0 (depth_counts st) method = count /\
         avg = (inject_Z (get0 (depth_sums st) method) / inject_Z count)%Q).
Proof.
  split.
  - intros st Hloop. eexists. apply combine_rows, agg_inv_items.
    eapply sampling_loop_inv; [apply no_observations_inv | exact Hloop].
  - intros recs H.
    apply sample_thread_dumps_Ok_inv in H as (st & combined & Hloop & Hcombine & ->).
    exists st. split; [exact Hloop|].
    assert (Hitems := agg_inv_items st
      (sampling_loop_inv _ _ _ _ _ _ _ _ _ _ no_observations_inv Hloop)).
    rewrite (combine_rows _ _ _ Hitems) in Hcombine. injection Hcombine as <-.
    intros method count avg Hin.
    rewrite sort_by_avg_depth_Permutation in Hin.
    apply list_elem_of_fmap in Hin as ([m c] & Heq & Hin).
    unfold row_of in Heq. simpl in Heq. injection Heq as -> -> ->.
    destruct (proj1 (Forall_forall _ _) Hitems _ Hin) as [Hpos Hcount].
    auto.
Qed.

(** ** The estimate *)


(** ** Runs that differ in one fetch, runs that raise *)

Lemma outcome_sample_step (network : string -> nat -> response)
    (url pf : string) (mf : option string) (samples : Z) (lo hi : Q)
    (st : aggregate) (sample : nat) :
  outcome (sample_step str_of_nonstring network random url pf mf samples lo hi st sample) =
    match py_sleep (uniform random sample lo hi) with
    | Ok _ => outcome (process_sample str_of_nonstring network url pf mf st sample)
    | Raise e => Raise e
    end.
Proof.
  unfold sample_step. rewrite !outcome_bind. simpl.
  destruct (py_sleep _); reflexivity.
Qed.

Lemma process_sample_ext (network network' : string -> nat -> response)
    (url pf : string) (mf : option string) (st : aggregate) (sample : nat) :
  network' url sample = network url sample ->
  process_sample str_of_nonstring network' url pf mf st sample =
  process_sample str_of_nonstring network url pf mf st sample.
Proof. unfold process_sample, get_thread_dump. intros ->. reflexivity. Qed.

Lemma sampling_loop_outcome_ext (network network' : string -> nat -> response)
    (url pf : string) (mf : option string) (samples : Z) (lo hi : Q)
    (range : list nat) :
  (forall k st, k ∈ range ->
     outcome (process_sample str_of_nonstring network' url pf mf st k) =
     outcome (process_sample str_of_nonstring network url pf mf st k)) ->
  forall st,
    outcome (sampling_loop str_of_nonstring network' random url pf mf samples lo hi range st) =
    outcome (sampling_loop str_of_nonstring network random url pf mf samples lo hi range st).
Proof.
  induction range as [|k range IH]; intros Hext st; [reflexivity|].
  cbn [sampling_loop]. rewrite !outcome_bind, !outcome_sample_step.
  rewrite (Hext k st) by left.
  destruct (py_sleep _); [|reflexivity].
  destruct (outcome (process_sample _ network _ _ _ _ _)); [|reflexivity].
  apply IH. intros k' st' Hk'. apply Hext. right. exact Hk'.
Qed.

Lemma sample_thread_dumps_outcome_ext (network network' : string -> nat -> response)
    (url pf : string) (mf : option string) (samples : Z) (lo hi : Q) :
  (forall k st, (k < Z.to_nat samples)%nat ->
     outcome (process_sample str_of_nonstring network' url pf mf st k) =
     outcome (process_sample str_of_nonstring network url pf mf st k)) ->
  outcome (sample_thread_dumps str_of_nonstring network' random url pf mf samples lo hi) =
  outcome (sample_thread_dumps str_of_nonstring network random url pf mf samples lo hi).
Proof.
  intros Hext. unfold sample_thread_dumps. rewrite !outcome_bind. simpl.
  rewrite (sampling_loop_outcome_ext network network'); [reflexivity|].
  intros k st Hk. apply Hext. apply elem_of_seq in Hk. lia.
Qed.

Lemma sampling_loop_raises (network : string -> nat -> response)
    (url pf : string) (mf : option string) (samples : Z) (lo hi : Q)
    (range : list nat) (i : nat) :
  i ∈ range ->
  (forall st, exists e, outcome (process_sample str_of_nonstring network url pf mf st i) = Raise e) ->
  forall st, exists e,
    outcome (sampling_loop str_of_nonstring network random url pf mf samples lo hi range st) = Raise e.
Proof.
  intros Hin Hraise. induction range as [|k range IH]; intros st; [inversion Hin|].
  cbn [sampling_loop]. rewrite outcome_bind, outcome_sample_step.
  destruct (py_sleep _); [|eauto].
  destruct (outcome (process_sample _ network _ _ _ st k)) as [st'|e] eqn:Hk; [|eauto].
  apply elem_of_cons in Hin as [->|Hin].
  - destruct (Hraise st) as [e He]. congruence.
  - apply IH, Hin.
Qed.

Lemma sample_thread_dumps_raises (network : string -> nat -> response)
    (url pf : string) (mf : option string) (samples : Z) (lo hi : Q) (i : nat) :
  (i < Z.to_nat samples)%nat ->
  (forall st, exists e, outcome (process_sample str_of_nonstring network url pf mf st i) = Raise e) ->
  exists e,
    outcome (sample_thread_dumps str_of_nonstring network random url pf mf samples lo hi) = Raise e.
Proof.
  intros Hi Hraise. unfold sample_thread_dumps. rewrite !outcome_bind. simpl.
  destruct (sampling_loop_raises network url pf mf samples lo hi
              (seq 0 (Z.to_nat samples)) i) with (st := no_observations) as [e He].
  - apply elem_of_seq. lia.
  - exact Hraise.
  - rewrite He. eauto.
Qed.

(** C10.  A fetch that succeeds with a falsy body (the empty object, the
    empty array, [null], [0], the empty string, ...) is skipped like a
    failed fetch: the skip is logged, the aggregate is the one before the
    sample, and the run returns what it returns when that fetch fails. *)
Theorem falsy_body_skipped_like_failed_fetch
    (network network' : string -> nat -> response) (url package_filter : string)
    (method_filter : option string) (samples : Z) (min_interval max_interval : Q)
    (i : nat) (parsed : json) :
  network url i = Body parsed -> truthy parsed = false ->
  fetch_fails (network' url i) = true ->
  (forall k, k <> i -> network' url k = network url k) ->
  (forall st,
     process_sample str_of_nonstring network url package_filter method_filter st i =
       Logged [WarningSkipping (Z.of_nat i + 1)] (Ok st) /\
     process_sample str_of_nonstring network' url package_filter method_filter st i =
       Logged [failure_event (network' url i); WarningSkipping (Z.of_nat i + 1)] (Ok st)) /\
  outcome (sample_thread_dumps str_of_nonstring network random url package_filter
             method_filter samples min_interval max_interval) =
  outcome (sample_thread_dumps str_of_nonstring network' random url package_filter
             method_filter samples min_interval max_interval) /\
  Forall (fun v => truthy v = false) [JObj []; JArr []; JNull; JInt 0; JStr ""].
Proof.
  intros Hbody Hfalsy Hfails Hsame.
  assert (Hi : forall st,
    process_sample str_of_nonstring network url package_filter method_filter st i =
      Logged [WarningSkipping (Z.of_nat i + 1)] (Ok st) /\
    process_sample str_of_nonstring network' url package_filter method_filter st i =
      Logged [failure_event (network' url i); WarningSkipping (Z.of_nat i + 1)] (Ok st)).
  { intros st. split.
    - apply (process_sample_falsy _ _ _ _ _ _ parsed); assumption.
    - apply process_sample_failed, Hfails. }
  split; [exact Hi|]. split.
  - symmetry. apply sample_thread_dumps_outcome_ext. intros k st _.
    destruct (decide (k = i)) as [->|Hne].
    + destruct (Hi st) as [-> ->]. reflexivity.
    + rewrite (process_sample_ext network network') by (apply Hsame, Hne). reflexivity.
  - repeat constructor.
Qed.

(** ** Bodies that are not thread dumps *)

Lemma process_sample_no_threads_key (network : string -> nat -> response)
    (url pf : string) (mf : option string) (st : aggregate) (i : nat)
    (fields : list (string * json)) :
  network url i = Body (JObj fields) -> fields <> [] ->
  assoc "threads" fields = None ->
  outcome (process_sample str_of_nonstring network url pf mf st i) = Raise (KeyError "threads").
Proof.
  intros Hbody Hne Hassoc. unfold process_sample, get_thread_dump. rewrite Hbody.
  unfold mret, logged_ret. rewrite bind_Logged_Ok.
  destruct fields as [|kv fields]; [congruence|]. cbn [truthy length Nat.eqb negb].
  rewrite outcome_bind. unfold extract_methods_with_depth, getitem.
  rewrite Hassoc. reflexivity.
Qed.

(** C2, as the code has it.  A body that is not JSON is handled as a
    transport failure is: the failure and the skip are logged, the
    aggregate is unchanged, and the run returns what it returns when that
    fetch fails in transport.  A body that parses to a non-empty object
    without the key ["threads"] is not recovered from: processing the
    sample raises [KeyError], and the run ends with an exception. *)
Theorem unparsable_body_skipped_misshapen_body_raises
    (network : string -> nat -> response) (url package_filter : string)
    (method_filter : option string) (samples : Z) (min_interval max_interval : Q) :
  (forall st i, network url i = InvalidJson ->
     process_sample str_of_nonstring network url package_filter method_filter st i =
       Logged [ErrorParsing; WarningSkipping (Z.of_nat i + 1)] (Ok st)) /\
  (forall st i, network url i = RequestFailed ->
     process_sample str_of_nonstring network url package_filter method_filter st i =
       Logged [ErrorFetching; WarningSkipping (Z.of_nat i + 1)] (Ok st)) /\
  (forall network' i, network url i = InvalidJson -> network' url i = RequestFailed ->
     (forall k, k <> i -> network' url k = network url k) ->
     outcome (sample_thread_dumps str_of_nonstring network random url package_filter
                method_filter samples min_interval max_interval) =
     outcome (sample_thread_dumps str_of_nonstring network' random url package_filter
                method_filter samples min_interval max_interval)) /\
  (forall i fields, network url i = Body (JObj fields) -> fields <> [] ->
     assoc "threads" fields = None ->
     (forall st,
        outcome (process_sample str_of_nonstring network url package_filter
                   method_filter st i) = Raise (KeyError "threads")) /\
     ((i < Z.to_nat samples)%nat ->
      exists e,
        outcome (sample_thread_dumps str_of_nonstring network random url package_filter
                   method_filter samples min_interval max_interval) = Raise e)).
Proof.
  repeat split.
  - intros st i H. rewrite process_sample_failed by (rewrite H; reflexivity).
    rewrite H. reflexivity.
  - intros st i H. rewrite process_sample_failed by (rewrite H; reflexivity).
    rewrite H. reflexivity.
  - intros network' i H H' Hsame. symmetry.
    apply sample_thread_dumps_outcome_ext. intros k st _.
    destruct (decide (k = i)) as [->|Hne].
    + rewrite !process_sample_failed by (rewrite ?H, ?H'; reflexivity). reflexivity.
    + rewrite (process_sample_ext network network') by (apply Hsame, Hne). reflexivity.
  - intros st. apply (process_sample_no_threads_key _ _ _ _ _ _ fields); assumption.
  - intros Hi. apply (sample_thread_dumps_raises _ _ _ _ _ _ _ i Hi).
    intros st. eexists. apply (process_sample_no_threads_key _ _ _ _ _ _ fields); assumption.
Qed.

(** ** A method filter without separator *)

Lemma filter_stack_trace_no_separator (stack : list json) (mf : string) :
  String.eqb mf "" = false -> has_char "#" mf = false ->
  filter_stack_trace stack (Some mf) = Raise ValueError.
Proof.
  intros Hne Hsep. unfold filter_stack_trace.
  rewrite Hne, (split_on_no_sep _ _ Hsep). reflexivity.
Qed.

(** C3, as the code has it.  A non-empty method filter without ['#'] is
    not checked before sampling: [filter_stack_trace] raises [ValueError]
    on every stack, so the extractor raises it at the first RUNNABLE
    thread it meets, while processing a sample; a run in which every fetch
    fails never applies the filter and returns the empty report. *)
Theorem malformed_filter_raises_when_applied
    (network : string -> nat -> response) (url package_filter : string)
    (mf : string) (samples : Z) (min_interval max_interval : Q) :
  String.eqb mf "" = false -> has_char "#" mf = false ->
  (forall stack, filter_stack_trace stack (Some mf) = Raise ValueError) /\
  (forall st i thread_dump thread rest raw frames,
     network url i = Body thread_dump -> truthy thread_dump = true ->
     getitem thread_dump "threads" = Ok (JArr (thread :: rest)) ->
     getitem thread "threadState" = Ok (JStr "RUNNABLE") ->
     getitem thread "stackTrace" = Ok raw -> py_iter raw = Ok frames ->
     outcome (process_sample str_of_nonstring network url package_filter (Some mf) st i) =
       Raise ValueError) /\
  ((0 <= min_interval)%Q -> (min_interval <= max_interval)%Q ->
   (forall i, (i < Z.to_nat samples)%nat -> (0 <= random i)%Q) ->
   (forall i, (i < Z.to_nat samples)%nat -> fetch_fails (network url i) = true) ->
   outcome (sample_thread_dumps str_of_nonstring network random url package_filter
              (Some mf) samples min_interval max_interval) = Ok []).
Proof.
  intros Hne Hsep. repeat split.
  - intros stack. apply filter_stack_trace_no_separator; assumption.
  - intros st i thread_dump thread rest raw frames Hbody Htruthy Hthreads Hstate Hraw Hiter.
    unfold process_sample, get_thread_dump. rewrite Hbody.
    unfold mret, logged_ret. rewrite bind_Logged_Ok, Htruthy, outcome_bind.
    unfold extract_methods_with_depth. rewrite Hthreads, bind_Ok.
    cbn [py_iter]. rewrite bind_Ok. cbn [methods_of_threads].
    unfold methods_of_thread. rewrite Hstate, bind_Ok.
    change (py_eq_str (JStr "RUNNABLE") "RUNNABLE") with true. cbv iota.
    rewrite Hraw, bind_Ok. unfold py_reversed. rewrite Hiter, !bind_Ok.
    rewrite filter_stack_trace_no_separator by assumption. reflexivity.
  - intros Hlo Hhi Hrandom Hfails.
    rewrite sample_thread_dumps_all_failed by assumption. reflexivity.
Qed.

End SamplerProperties.

(** ** The scenarios of the specification *)

(** C1, as the code has it.  For the stack [A.foo, B.bar, A.baz] of one
    RUNNABLE thread, prefix ["A"] and marker [B#bar], the extractor returns
    one tuple: the reversed stack is [A.baz, B.bar, A.foo], the filter keeps
    [B.bar, A.foo], and [A.foo], at depth 1, has the prefix. *)
Theorem scenario_B_extracts_the_caller (str_of_nonstring : json -> string) :
  extract_methods_with_depth str_of_nonstring scenario_dump "A" (Some "B#bar") =
    Ok [("A.foo", 1%nat, JStr "RUNNABLE")].
Proof. reflexivity. Qed.

(** Scenario B does not give the empty result. *)
Lemma scenario_B_result_not_empty :
  extract_methods_with_depth no_other_values scenario_dump "A" (Some "B#bar") <> Ok [].
Proof. vm_compute. discriminate. Qed.

(** A JSON object without ["threads"] is not skipped as a failed fetch is:
    the sample raises, and so does the run. *)
Lemma misshapen_body_not_recovered :
  health_network "u" 1%nat = Body (JObj [("status", JStr "UP")]) /\
  outcome (process_sample no_other_values health_network "u" "" None no_observations 1) =
    Raise (KeyError "threads") /\
  outcome (process_sample no_other_values unreachable_network "u" "" None no_observations 1) =
    Ok no_observations /\
  outcome (sample_thread_dumps no_other_values health_network midpoint "u" "" None 2 0 0) =
    Raise (KeyError "threads").
Proof. repeat split. Qed.

(** With the filter ["Foo"], the stack filter raises, the run raises after
    its first sample was taken and skipped, and a run that never reaches a
    RUNNABLE thread reports no error at all. *)
Lemma malformed_filter_raises_mid_run :
  filter_stack_trace (rev scenario_stack) (Some "Foo") = Raise ValueError /\
  sample_thread_dumps no_other_values failing_first_network midpoint "u" "A" (Some "Foo") 2 1 3 =
    Logged
      [InfoStarted "u"; InfoEstimated (8 # 2); DebugWaiting (4 # 2) 1 2; ErrorFetching;
       WarningSkipping 1; DebugWaiting (4 # 2) 2 2]
      (Raise ValueError) /\
  outcome (sample_thread_dumps no_other_values unreachable_network midpoint "u" "A"
             (Some "Foo") 2 1 3) = Ok [].
Proof. repeat split. Qed.

(** ** The theorems at the scenarios *)

Lemma filter_stack_trace_refines_reference_witness :
  Forall (fun j => is_Some (frame_view j)) (rev scenario_stack) /\
  marker_wf (Marker "B" "bar") /\
  filter_stack_trace (rev scenario_stack) (marker_string (Marker "B" "bar")) =
    Ok (filter_reference (rev scenario_stack) (Marker "B" "bar")).
Proof.
  assert (Hstack : Forall (fun j => is_Some (frame_view j)) (rev scenario_stack)).
  { repeat (constructor; [eexists; reflexivity|]). constructor. }
  assert (Hmk : marker_wf (Marker "B" "bar")) by (split; reflexivity).
  split; [exact Hstack|]. split; [exact Hmk|].
  exact (filter_stack_trace_refines_reference _ _ Hstack Hmk).
Defined.

Lemma extract_only_runnable_threads_witness :
  getitem mixed_dump "threads" =
    Ok (JArr [thread "BLOCKED" [frame "A" "lock"]; thread "RUNNABLE" scenario_stack]) /\
  extract_methods_with_depth no_other_values mixed_dump "A" None =
    Ok [("A.baz", 0%nat, JStr "RUNNABLE"); ("A.foo", 2%nat, JStr "RUNNABLE")] /\
  extract_methods_with_depth no_other_values
    (JObj [("threads", JArr (filter (fun t => is_runnable t = true)
              [thread "BLOCKED" [frame "A" "lock"]; thread "RUNNABLE" scenario_stack]))])
    "A" None =
    Ok [("A.baz", 0%nat, JStr "RUNNABLE"); ("A.foo", 2%nat, JStr "RUNNABLE")].
Proof.
  split; [reflexivity|]. split; [reflexivity|].
  exact (proj2 (extract_only_runnable_threads no_other_values mixed_dump _ "A" None _
                  eq_refl eq_refl)).
Defined.

Lemma report_records_well_formed_witness :
  outcome (sample_thread_dumps no_other_values scenario_C_network midpoint "u" "X" None 3 1 3) =
    Ok [("X.y", 2, 6 # 2)] /\
  exists st,
    outcome (sampling_loop no_other_values scenario_C_network midpoint "u" "X" None 3 1 3
               (seq 0 (Z.to_nat 3)) no_observations) = Ok st /\
    forall method count avg, (method, count, avg) ∈ [("X.y", 2, 6 # 2)] ->
      1 <= count /\
      get0 (depth_counts st) method = count /\
      avg = (inject_Z (get0 (depth_sums st) method) / inject_Z count)%Q.
Proof.
  split; [reflexivity|].
  exact (proj2 (report_records_well_formed no_other_values midpoint scenario_C_network
                  "u" "X" None 3 1 3) _ eq_refl).
Defined.

Lemma report_sorted_by_average_depth_witness :
  outcome (sample_thread_dumps no_other_values scenario_C_network midpoint "u" "" None 3 1 3) =
    Ok [("Lib.d", 1, 0%Q); ("Lib.b", 2, 2 # 2); ("Lib.c", 1, 1%Q); ("Lib.a", 2, 4 # 2);
        ("X.y", 2, 6 # 2)] /\
  (avg_depth ("Lib.d", 1%Z, 0) <= avg_depth ("Lib.b", 2%Z, 2 # 2))%Q.
Proof.
  split; [reflexivity|].
  exact (report_sorted_by_average_depth no_other_values midpoint scenario_C_network
           "u" "" None 3 1 3 _ eq_refl 0%nat _ _ eq_refl eq_refl).
Defined.

Lemma no_successful_sample_gives_empty_report_witness :
  (0 <= 1)%Q /\ (1 <= 3)%Q /\
  (forall i, (i < Z.to_nat 2)%nat -> (0 <= midpoint i)%Q) /\
  (forall i, (i < Z.to_nat 2)%nat -> fetch_fails (unreachable_network "u" i) = true) /\
  sample_thread_dumps no_other_values unreachable_network midpoint "u" "A" None 2 1 3 =
    Logged
      [InfoStarted "u"; InfoEstimated (inject_Z 2 * ((3 - 1) / 2 + 1));
       DebugWaiting (uniform midpoint 0 1 3) 1 2; ErrorFetching; WarningSkipping 1;
       DebugWaiting (uniform midpoint 1 1 3) 2 2; ErrorFetching; WarningSkipping 2;
       InfoFinished "u"]
      (Ok []).
Proof.
  assert (Hlo : (0 <= 1)%Q) by (unfold Qle; simpl; lia).
  assert (Hhi : (1 <= 3)%Q) by (unfold Qle; simpl; lia).
  assert (Hrandom : forall i, (i < Z.to_nat 2)%nat -> (0 <= midpoint i)%Q)
    by (intros i _; unfold Qle; simpl; lia).
  assert (Hfails : forall i, (i < Z.to_nat 2)%nat ->
                     fetch_fails (unreachable_network "u" i) = true)
    by (intros i _; reflexivity).
  repeat (split; [assumption|]).
  exact (proj2 (no_successful_sample_gives_empty_report no_other_values midpoint
                  unreachable_network "u" "A" None 2 1 3 Hlo Hhi Hrandom Hfails)).
Defined.

Lemma falsy_body_skipped_like_failed_fetch_witness :
  empty_object_network "u" 0%nat = Body (JObj []) /\
  truthy (JObj []) = false /\
  fetch_fails (failing_first_network "u" 0%nat) = true /\
  (forall k, k <> 0%nat -> failing_first_network "u" k = empty_object_network "u" k) /\
  outcome (sample_thread_dumps no_other_values empty_object_network midpoint "u" "A" None 2 1 3) =
  outcome (sample_thread_dumps no_other_values failing_first_network midpoint "u" "A" None 2 1 3).
Proof.
  assert (Hsame : forall k, k <> 0%nat ->
                    failing_first_network "u" k = empty_object_network "u" k)
    by (intros [|k] Hk; [congruence | reflexivity]).
  repeat (split; [first [reflexivity | assumption]|]).
  exact (proj1 (proj2 (falsy_body_skipped_like_failed_fetch no_other_values midpoint
                         empty_object_network failing_first_network "u" "A" None 2 1 3
                         0%nat (JObj []) eq_refl eq_refl eq_refl Hsame))).
Defined.

Lemma unparsable_body_skipped_misshapen_body_raises_witness :
  health_network "u" 0%nat = InvalidJson /\
  process_sample no_other_values health_network "u" "" None no_observations 0 =
    Logged [ErrorParsing; WarningSkipping 1] (Ok no_observations) /\
  failing_first_network "u" 0%nat = RequestFailed /\
  process_sample no_other_values failing_first_network "u" "" None no_observations 0 =
    Logged [ErrorFetching; WarningSkipping 1] (Ok no_observations) /\
  outcome (sample_thread_dumps no_other_values text_first_network midpoint "u" "" None 2 0 0) =
  outcome (sample_thread_dumps no_other_values failing_first_network midpoint "u" "" None 2 0 0) /\
  health_network "u" 1%nat = Body (JObj [("status", JStr "UP")]) /\
  outcome (process_sample no_other_values health_network "u" "" None no_observations 1) =
    Raise (KeyError "threads") /\
  exists e,
    outcome (sample_thread_dumps no_other_values health_network midpoint "u" "" None 2 0 0) =
      Raise e.
Proof.
  assert (Hsame : forall k, k <> 0%nat ->
                    failing_first_network "u" k = text_first_network "u" k)
    by (intros [|k] Hk; [congruence | reflexivity]).
  assert (Hfields : [("status", JStr "UP")] <> []) by discriminate.
  destruct (unparsable_body_skipped_misshapen_body_raises no_other_values midpoint
              health_network "u" "" None 2 0 0) as (Htext & _ & _ & Hshape).
  destruct (unparsable_body_skipped_misshapen_body_raises no_other_values midpoint
              failing_first_network "u" "" None 2 0 0) as (_ & Hfailed & _ & _).
  destruct (unparsable_body_skipped_misshapen_body_raises no_other_values midpoint
              text_first_network "u" "" None 2 0 0) as (_ & _ & Hrun & _).
  destruct (Hshape 1%nat _ eq_refl Hfields eq_refl) as [Hsample Hraise].
  split; [reflexivity|]. split; [exact (Htext no_observations 0%nat eq_refl)|].
  split; [reflexivity|]. split; [exact (Hfailed no_observations 0%nat eq_refl)|].
  split; [exact (Hrun failing_first_network 0%nat eq_refl eq_refl Hsame)|].
  split; [reflexivity|]. split; [exact (Hsample no_observations)|].
  apply Hraise. simpl. lia.
Defined.

Lemma malformed_filter_raises_when_applied_witness :
  String.eqb "Foo" "" = false /\ has_char "#" "Foo" = false /\
  filter_stack_trace (rev scenario_stack) (Some "Foo") = Raise ValueError /\
  outcome (process_sample no_other_values runnable_network "u" "A" (Some "Foo")
             no_observations 0) = Raise ValueError /\
  outcome (sample_thread_dumps no_other_values unreachable_network midpoint "u" "A"
             (Some "Foo") 2 1 3) = Ok [].
Proof.
  destruct (malformed_filter_raises_when_applied no_other_values midpoint
              runnable_network "u" "A" "Foo" 2 1 3 eq_refl eq_refl) as (Hfilter & Hsample & _).
  destruct (malformed_filter_raises_when_applied no_other_values midpoint
              unreachable_network "u" "A" "Foo" 2 1 3 eq_refl eq_refl) as (_ & _ & Hrun).
  split; [reflexivity|]. split; [reflexivity|]. split; [apply Hfilter|].
  split.
  - exact (Hsample no_observations 0%nat scenario_dump _ _ _ _
             eq_refl eq_refl eq_refl eq_refl eq_refl eq_refl).
  - apply Hrun.
    + unfold Qle; simpl; lia.
    + unfold Qle; simpl; lia.
    + intros i _. unfold Qle; simpl; lia.
    + intros i _. reflexivity.
Defined.

(** * Further properties of the code *)

(** ** More on the Stack Filter *)

Lemma getitem_Raise (v : json) (k : string) (e : exn) :
  getitem v k = Raise e -> e = TypeError \/ e = KeyError k.
Proof.
  unfold getitem. destruct v; try (intros [= <-]; left; reflexivity).
  destruct (assoc k fields); [discriminate|]. intros [= <-]. right. reflexivity.
Qed.

Lemma bind_Raise_inv {A B : Type} (m : result A) (k : A -> result B) (e : exn) :
  m ≫= k = Raise e -> m = Raise e \/ exists a, m = Ok a /\ k a = Raise e.
Proof.
  destruct m as [a|e']; simpl; intros H; [right; eauto|].
  left. injection H as ->. reflexivity.
Qed.

Lemma find_start_depth_Some (c m : string) (stack : list json) (k d : nat) :
  find_start_depth c m stack k = Ok (Some d) ->
  (k <= d)%nat /\ (d - k < length stack)%nat /\
  find_start_depth c m (drop (d - k) stack) 0 = Ok (Some 0%nat).
Proof.
  revert k. induction stack as [|frame rest IH]; intros k H; simpl in H; [discriminate|].
  bind_inv H as cls Hcls.
  assert (Hrest : find_start_depth c m rest (S k) = Ok (Some d) ->
    (k <= d)%nat /\ (d - k < length (frame :: rest))%nat /\
    find_start_depth c m (drop (d - k) (frame :: rest)) 0 = Ok (Some 0%nat)).
  { intros Hr. destruct (IH _ Hr) as (Hle & Hlt & Hfind).
    replace (d - k)%nat with (S (d - S k)) by lia. simpl. repeat split; try lia.
    exact Hfind. }
  destruct (py_eq_str cls c) eqn:Hc; [|exact (Hrest H)].
  bind_inv H as mth Hmth.
  destruct (py_eq_str mth m) eqn:Hm; [|exact (Hrest H)].
  injection H as <-. rewrite Nat.sub_diag. simpl. repeat split; try lia.
  rewrite Hcls. simpl. rewrite Hc, Hmth. simpl. rewrite Hm. reflexivity.
Qed.

Lemma find_start_depth_Raise (c m : string) (stack : list json) (k : nat) (e : exn) :
  find_start_depth c m stack k = Raise e ->
  e = TypeError \/ e = KeyError "className" \/ e = KeyError "methodName".
Proof.
  revert k. induction stack as [|frame rest IH]; intros k H; simpl in H; [discriminate|].
  apply bind_Raise_inv in H as [H|(cls & Hcls & H)].
  { apply getitem_Raise in H as [->| ->]; auto. }
  destruct (py_eq_str cls c); [|exact (IH _ H)].
  apply bind_Raise_inv in H as [H|(mth & Hmth & H)].
  { apply getitem_Raise in H as [->| ->]; auto. }
  destruct (py_eq_str mth m); [discriminate|exact (IH _ H)].
Qed.

Lemma length_split_on (sep : ascii) (s : string) :
  length (split_on sep s) = S (count_char sep s).
Proof.
  induction s as [|c s IH]; simpl; [reflexivity|].
  destruct (Ascii.eqb c sep); simpl; [rewrite IH; reflexivity|].
  destruct (split_on sep s); simpl in *; lia.
Qed.

(** X1.  What [filter_stack_trace] returns is a suffix of the stack it is
    given, and filtering the result again with the same filter returns it
    unchanged. *)
Theorem filter_stack_trace_suffix_idempotent (stack out : list json)
    (method_filter : option string) :
  filter_stack_trace stack method_filter = Ok out ->
  out `suffix_of` stack /\ filter_stack_trace out method_filter = Ok out.
Proof.
  unfold filter_stack_trace. intros H.
  destruct method_filter as [mf|]; [|injection H as <-; split; reflexivity].
  destruct (String.eqb mf ""); [injection H as <-; split; reflexivity|].
  destruct (split_on "#" mf) as [|c [|m [|]]]; try discriminate.
  bind_inv H as start Hstart. destruct start as [d|]; injection H as <-.
  - destruct (find_start_depth_Some _ _ _ _ _ Hstart) as (_ & _ & Hfind).
    rewrite Nat.sub_0_r in Hfind. split; [apply suffix_drop|].
    rewrite Hfind. reflexivity.
  - split; [apply suffix_nil | reflexivity].
Qed.

Lemma filter_stack_trace_suffix_idempotent_witness :
  filter_stack_trace (rev scenario_stack) (Some "B#bar") =
    Ok [frame "B" "bar"; frame "A" "foo"] /\
  [frame "B" "bar"; frame "A" "foo"] `suffix_of` rev scenario_stack /\
  filter_stack_trace [frame "B" "bar"; frame "A" "foo"] (Some "B#bar") =
    Ok [frame "B" "bar"; frame "A" "foo"].
Proof.
  split; [reflexivity|].
  exact (filter_stack_trace_suffix_idempotent (rev scenario_stack) _ (Some "B#bar") eq_refl).
Defined.

Lemma find_start_depth_stops (c m : string) (before after : list json)
    (stack_frame : json) (k : nat) :
  Forall (fun j => is_Some (frame_view j) /\ is_marker_frame c m j = false) before ->
  is_marker_frame c m stack_frame = true ->
  find_start_depth c m (before ++ stack_frame :: after) k = Ok (Some (k + length before)%nat).
Proof.
  intros Hbefore Hframe. revert k.
  induction Hbefore as [|j before [[f Hf] Hno] _ IH]; intros k; simpl.
  - unfold is_marker_frame in Hframe.
    destruct (frame_view stack_frame) as [f|] eqn:Hf; [|discriminate].
    destruct (frame_view_Some _ _ Hf) as [Hc Hm].
    apply andb_true_iff in Hframe as [Hfc Hfm].
    rewrite Hc. simpl. rewrite Hfc, Hm. simpl. rewrite Hfm.
    f_equal. f_equal. lia.
  - unfold is_marker_frame in Hno. rewrite Hf in Hno.
    destruct (frame_view_Some _ _ Hf) as [Hc Hm]. rewrite Hc. simpl.
    destruct (String.eqb (className f) c); simpl in *.
    + rewrite Hm. simpl. rewrite Hno, IH. f_equal. f_equal. lia.
    + rewrite IH. f_equal. f_equal. lia.
Qed.

(** X2.  The filter stops at the first frame that has the marker's names:
    the frames after it are returned as they are and never examined, so
    values that are no frames at all may follow the marker frame. *)
Theorem filter_stack_trace_stops_at_marker (c m : string)
    (before after : list json) (stack_frame : json) :
  marker_wf (Marker c m) ->
  Forall (fun j => is_Some (frame_view j) /\ is_marker_frame c m j = false) before ->
  is_marker_frame c m stack_frame = true ->
  filter_stack_trace (before ++ stack_frame :: after) (marker_string (Marker c m)) =
    Ok (stack_frame :: after).
Proof.
  intros [Hc Hm] Hbefore Hframe. simpl.
  change (c ++ "#" ++ m) with (c ++ String "#" m).
  rewrite app_sep_nonempty, (split_on_pair _ _ _ Hc Hm).
  rewrite (find_start_depth_stops _ _ _ _ _ 0 Hbefore Hframe). simpl.
  rewrite drop_app_length. reflexivity.
Qed.

Lemma filter_stack_trace_stops_at_marker_witness :
  marker_wf (Marker "B" "bar") /\
  Forall (fun j => is_Some (frame_view j) /\ is_marker_frame "B" "bar" j = false)
    [frame "A" "baz"] /\
  is_marker_frame "B" "bar" (frame "B" "bar") = true /\
  filter_stack_trace ([frame "A" "baz"] ++ frame "B" "bar" :: [JNull; JInt 7])
    (marker_string (Marker "B" "bar")) = Ok (frame "B" "bar" :: [JNull; JInt 7]).
Proof.
  assert (Hmk : marker_wf (Marker "B" "bar")) by (split; reflexivity).
  assert (Hbefore : Forall (fun j => is_Some (frame_view j) /\
                              is_marker_frame "B" "bar" j = false) [frame "A" "baz"]).
  { constructor; [|constructor]. split; [eexists|]; reflexivity. }
  repeat (split; [first [assumption | reflexivity]|]).
  exact (filter_stack_trace_stops_at_marker "B" "bar" [frame "A" "baz"] [JNull; JInt 7]
           (frame "B" "bar") Hmk Hbefore eq_refl).
Defined.

(** X3.  For a non-empty method filter, [filter_stack_trace] raises
    [ValueError] exactly when the filter does not contain exactly one
    ['#'], whatever the stack is. *)
Theorem filter_stack_trace_ValueError_iff (stack : list json) (mf : string) :
  String.eqb mf "" = false ->
  (filter_stack_trace stack (Some mf) = Raise ValueError <-> count_char "#" mf <> 1%nat).
Proof.
  intros Hne. unfold filter_stack_trace. rewrite Hne.
  pose proof (length_split_on "#" mf) as Hlen.
  destruct (split_on "#" mf) as [|c [|m [|x rest]]]; simpl in Hlen.
  - lia.
  - split; [lia | reflexivity].
  - split; [|lia]. intros H.
    apply bind_Raise_inv in H as [H|(start & _ & H)].
    + apply find_start_depth_Raise in H as [H|[H|H]]; discriminate.
    + destruct start; discriminate.
  - split; [lia | reflexivity].
Qed.

Lemma filter_stack_trace_ValueError_iff_witness :
  String.eqb "a#b#c" "" = false /\ count_char "#" "a#b#c" <> 1%nat /\
  filter_stack_trace (rev scenario_stack) (Some "a#b#c") = Raise ValueError.
Proof.
  assert (Hcount : count_char "#" "a#b#c" <> 1%nat) by (simpl; lia).
  split; [reflexivity|]. split; [exact Hcount|].
  exact (proj2 (filter_stack_trace_ValueError_iff (rev scenario_stack) "a#b#c" eq_refl) Hcount).
Defined.

(** ** More on the Method Extractor *)

Lemma prefix_app (p s t : string) :
  String.prefix p s = true -> String.prefix p (s ++ t) = true.
Proof.
  revert s. induction p as [|a p IH]; intros s H; [destruct (s ++ t); reflexivity|].
  destruct s as [|b s]; simpl in *; [discriminate|].
  destruct (ascii_dec a b); [apply IH, H | discriminate].
Qed.

Lemma py_startswith_Ok (v : json) (p : string) (b : bool) :
  py_startswith v p = Ok b -> exists s, v = JStr s /\ b = String.prefix p s.
Proof. destruct v; simpl; try discriminate. intros [= <-]. eauto. Qed.

Lemma filter_stack_trace_wf (stack : list json) (mk : marker) :
  Forall (fun j => is_Some (frame_view j)) stack -> marker_wf mk ->
  exists out,
    filter_stack_trace stack (marker_string mk) = Ok out /\
    Forall (fun j => is_Some (frame_view j)) out.
Proof.
  intros Hstack Hmk. destruct mk as [| |c m]; simpl; eauto.
  destruct Hmk as [Hc Hm].
  change (c ++ "#" ++ m) with (c ++ String "#" m).
  rewrite app_sep_nonempty, (split_on_pair _ _ _ Hc Hm).
  rewrite (find_start_depth_first_index _ _ _ _ Hstack). simpl.
  destruct (first_index _ stack) as [i|]; simpl; eexists; (split; [reflexivity|]).
  - apply Forall_drop, Hstack.
  - constructor.
Qed.

Lemma filter_stack_trace_Raise (stack : list json) (mf : option string) (e : exn) :
  filter_stack_trace stack mf = Raise e -> extractor_exn mf e.
Proof.
  unfold filter_stack_trace, extractor_exn. intros H.
  destruct mf as [s|]; [|discriminate].
  destruct (String.eqb_spec s "") as [|Hne]; [discriminate|].
  pose proof (length_split_on "#" s) as Hlen.
  assert (Hvalue : e = ValueError -> count_char "#" s <> 1%nat ->
    e = ValueError /\ exists mf, Some s = Some mf /\ mf <> "" /\ count_char "#" mf <> 1%nat)
    by (intros -> Hcount; eauto).
  destruct (split_on "#" s) as [|c [|m [|x rest]]]; simpl in Hlen.
  - lia.
  - injection H as <-. right; right; right. apply Hvalue; [reflexivity|lia].
  - apply bind_Raise_inv in H as [H|(start & _ & H)]; [|destruct start; discriminate].
    apply find_start_depth_Raise in H as [->|[->| ->]]; [left; reflexivity| |];
      right; right; left; eexists; (split; [reflexivity|]); repeat constructor.
  - injection H as <-. right; right; right. apply Hvalue; [reflexivity|lia].
Qed.

Section ExtractorFurther.

Variable str_of_nonstring : json -> string.

Lemma methods_of_frames_index (pf : string) (st : json) (frames : list json)
    (d0 : nat) (out : list (string * nat * json)) :
  methods_of_frames str_of_nonstring pf st frames d0 = Ok out ->
  forall method depth state, (method, depth, state) ∈ out ->
    String.prefix pf method = true /\
    exists i frame, frames !! i = Some frame /\ depth = (d0 + i)%nat /\
      names_frame str_of_nonstring method frame.
Proof.
  revert d0 out. induction frames as [|frame frames IH]; intros d0 out H; simpl in H.
  - injection H as <-. intros ??? Hin. inversion Hin.
  - assert (Hrest : forall more, methods_of_frames str_of_nonstring pf st frames (S d0) = Ok more ->
      forall method depth state, (method, depth, state) ∈ more ->
        String.prefix pf method = true /\
        exists i frame', (frame :: frames) !! i = Some frame' /\ depth = (d0 + i)%nat /\
          names_frame str_of_nonstring method frame').
    { intros more Hmore method depth state Hin.
      destruct (IH _ _ Hmore _ _ _ Hin) as (Hp & i & frame' & Hi & -> & Hn).
      split; [exact Hp|]. exists (S i), frame'. repeat split; [exact Hi|lia|exact Hn]. }
    bind_inv H as cls Hcls. bind_inv H as sel Hsel. destruct sel; [|exact (Hrest _ H)].
    bind_inv H as cls' Hcls'. bind_inv H as mth Hmth. bind_inv H as more Hmore.
    injection H as <-. intros method depth state Hin.
    apply elem_of_cons in Hin as [Heq|Hin]; [|exact (Hrest _ Hmore _ _ _ Hin)].
    injection Heq as -> -> ->.
    apply py_startswith_Ok in Hsel as (s & -> & Hprefix).
    rewrite Hcls in Hcls'. injection Hcls' as <-. split.
    + simpl. apply prefix_app. symmetry. exact Hprefix.
    + exists 0%nat, frame. repeat split; [lia|]. exists (JStr s), mth. auto.
Qed.

Lemma methods_of_frames_Raise (pf : string) (st : json) (frames : list json)
    (d0 : nat) (mf : option string) (e : exn) :
  methods_of_frames str_of_nonstring pf st frames d0 = Raise e -> extractor_exn mf e.
Proof.
  assert (Hkey : forall v k e', getitem v k = Raise e' ->
            k ∈ ["threads"; "threadState"; "stackTrace"; "className"; "methodName"] ->
            extractor_exn mf e').
  { intros v k e' H Hk. apply getitem_Raise in H as [->| ->]; [left; reflexivity|].
    right; right; left. eauto. }
  revert d0. induction frames as [|frame frames IH]; intros d0 H; simpl in H; [discriminate|].
  apply bind_Raise_inv in H as [H|(cls & Hcls & H)]; [apply (Hkey _ _ _ H); repeat constructor|].
  apply bind_Raise_inv in H as [H|(sel & Hsel & H)].
  { destruct cls; try (injection H as <-; right; left; reflexivity). discriminate. }
  destruct sel; [|exact (IH _ H)].
  apply bind_Raise_inv in H as [H|(cls' & Hcls' & H)]; [apply (Hkey _ _ _ H); repeat constructor|].
  apply bind_Raise_inv in H as [H|(mth & Hmth & H)]; [apply (Hkey _ _ _ H); repeat constructor|].
  apply bind_Raise_inv in H as [H|(more & Hmore & H)]; [exact (IH _ H) | discriminate].
Qed.

Lemma methods_of_frames_wf (pf : string) (st : json) (frames : list json) (d0 : nat) :
  Forall (fun j => is_Some (frame_view j)) frames ->
  exists out, methods_of_frames str_of_nonstring pf st frames d0 = Ok out.
Proof.
  intros Hwf. revert d0. induction Hwf as [|frame frames [f Hf] _ IH]; intros d0; simpl; eauto.
  destruct (frame_view_Some _ _ Hf) as [Hc Hm]. rewrite Hc. simpl.
  destruct (IH (S d0)) as [more Hmore].
  destruct (String.prefix pf (className f)); [|eauto].
  rewrite Hm. simpl. rewrite Hmore. simpl. eauto.
Qed.

Lemma methods_of_thread_index (pf : string) (mf : option string)
    (thread : json) (out : list (string * nat * json)) :
  methods_of_thread str_of_nonstring pf mf thread = Ok out ->
  forall method depth state, (method, depth, state) ∈ out ->
    String.prefix pf method = true /\
    exists raw frames filtered stack_frame,
      is_runnable thread = true /\
      getitem thread "stackTrace" = Ok raw /\ py_iter raw = Ok frames /\
      filter_stack_trace (rev frames) mf = Ok filtered /\
      filtered !! depth = Some stack_frame /\
      names_frame str_of_nonstring method stack_frame.
Proof.
  unfold methods_of_thread. intros H method depth state Hin.
  bind_inv H as ts Hts. destruct (py_eq_str ts "RUNNABLE") eqn:Hst.
  - bind_inv H as raw Hraw. bind_inv H as reversed Hrev. bind_inv H as filtered Hfil.
    unfold py_reversed in Hrev. bind_inv Hrev as frames Hframes. injection Hrev as <-.
    destruct (methods_of_frames_index _ _ _ _ _ H _ _ _ Hin) as (Hp & i & fr & Hi & -> & Hn).
    split; [exact Hp|]. exists raw, frames, filtered, fr.
    repeat split; try assumption. unfold is_runnable. rewrite Hts. exact Hst.
  - injection H as <-. inversion Hin.
Qed.

Lemma methods_of_threads_index (pf : string) (mf : option string)
    (threads : list json) (out : list (string * nat * json)) :
  methods_of_threads str_of_nonstring pf mf threads = Ok out ->
  forall method depth state, (method, depth, state) ∈ out ->
    String.prefix pf method = true /\
    exists thread raw frames filtered stack_frame,
      thread ∈ threads /\ is_runnable thread = true /\
      getitem thread "stackTrace" = Ok raw /\ py_iter raw = Ok frames /\
      filter_stack_trace (rev frames) mf = Ok filtered /\
      filtered !! depth = Some stack_frame /\
      names_frame str_of_nonstring method stack_frame.
Proof.
  revert out. induction threads as [|thread threads IH]; intros out H; simpl in H.
  - injection H as <-. intros ??? Hin. inversion Hin.
  - bind_inv H as here Hhere. bind_inv H as more Hmore. injection H as <-.
    intros method depth state Hin. apply elem_of_app in Hin as [Hin|Hin].
    + destruct (methods_of_thread_index _ _ _ _ Hhere _ _ _ Hin)
        as (Hp & raw & frames & filtered & fr & ? & ? & ? & ? & ? & ?).
      split; [exact Hp|]. exists thread, raw, frames, filtered, fr.
      repeat split; try assumption. left.
    + destruct (IH _ Hmore _ _ _ Hin)
        as (Hp & thread' & raw & frames & filtered & fr & ? & ? & ? & ? & ? & ? & ?).
      split; [exact Hp|]. exists thread', raw, frames, filtered, fr.
      repeat split; try assumption. right. assumption.
Qed.

(** X4.  Every tuple [(method, depth, state)] the extractor returns has a
    method name that starts with the package filter, and [depth] is the
    position, in the filtered reversed stack of a RUNNABLE thread, of the
    frame the method name is made from. *)
Theorem extract_depth_is_position (thread_dump : json) (threads : list json)
    (package_filter : string) (method_filter : option string)
    (out : list (string * nat * json)) :
  getitem thread_dump "threads" = Ok (JArr threads) ->
  extract_methods_with_depth str_of_nonstring thread_dump package_filter method_filter = Ok out ->
  forall method depth state, (method, depth, state) ∈ out ->
    String.prefix package_filter method = true /\
    exists thread raw frames filtered stack_frame,
      thread ∈ threads /\ is_runnable thread = true /\
      getitem thread "stackTrace" = Ok raw /\ py_iter raw = Ok frames /\
      filter_stack_trace (rev frames) method_filter = Ok filtered /\
      filtered !! depth = Some stack_frame /\
      names_frame str_of_nonstring method stack_frame.
Proof.
  unfold extract_methods_with_depth. intros Hthreads H.
  rewrite Hthreads in H. simpl in H. apply (methods_of_threads_index _ _ _ _ H).
Qed.

Lemma methods_of_thread_other_state (pf : string) (mf : option string)
    (thread state : json) :
  getitem thread "threadState" = Ok state -> is_runnable thread = false ->
  methods_of_thread str_of_nonstring pf mf thread = Ok [].
Proof.
  unfold methods_of_thread, is_runnable. intros -> Hr. simpl. rewrite Hr. reflexivity.
Qed.

Lemma methods_of_threads_filter (pf : string) (mf : option string) (threads : list json) :
  Forall (fun t => exists state, getitem t "threadState" = Ok state) threads ->
  methods_of_threads str_of_nonstring pf mf (filter (fun t => is_runnable t = true) threads) =
  methods_of_threads str_of_nonstring pf mf threads.
Proof.
  induction 1 as [|thread threads [state Hstate] _ IH]; [reflexivity|].
  rewrite filter_cons. destruct (decide (is_runnable thread = true)) as [Hr|Hr].
  - simpl. rewrite IH. reflexivity.
  - apply not_true_is_false in Hr. simpl.
    rewrite (methods_of_thread_other_state _ _ _ _ Hstate Hr), IH. simpl.
    destruct (methods_of_threads _ _ _ threads); reflexivity.
Qed.

(** X5.  A thread that has a state other than ['RUNNABLE'] is not looked
    into: when every thread of the dump has a ["threadState"], the
    extractor returns, or raises, exactly what it does on the dump without
    those threads, whatever else they contain. *)
Theorem extract_ignores_other_threads (thread_dump : json) (threads : list json)
    (package_filter : string) (method_filter : option string) :
  getitem thread_dump "threads" = Ok (JArr threads) ->
  Forall (fun t => exists state, getitem t "threadState" = Ok state) threads ->
  extract_methods_with_depth str_of_nonstring thread_dump package_filter method_filter =
  extract_methods_with_depth str_of_nonstring
    (JObj [("threads", JArr (filter (fun t => is_runnable t = true) threads))])
    package_filter method_filter.
Proof.
  unfold extract_methods_with_depth. intros -> Hstates. simpl.
  symmetry. apply methods_of_threads_filter, Hstates.
Qed.

Lemma methods_of_thread_Raise (pf : string) (mf : option string) (thread : json) (e : exn) :
  methods_of_thread str_of_nonstring pf mf thread = Raise e -> extractor_exn mf e.
Proof.
  assert (Hkey : forall v k e', getitem v k = Raise e' ->
            k ∈ ["threads"; "threadState"; "stackTrace"; "className"; "methodName"] ->
            extractor_exn mf e').
  { intros v k e' H Hk. apply getitem_Raise in H as [->| ->]; [left; reflexivity|].
    right; right; left. eauto. }
  unfold methods_of_thread. intros H.
  apply bind_Raise_inv in H as [H|(ts & Hts & H)]; [apply (Hkey _ _ _ H); repeat constructor|].
  destruct (py_eq_str ts "RUNNABLE"); [|discriminate].
  apply bind_Raise_inv in H as [H|(raw & Hraw & H)]; [apply (Hkey _ _ _ H); repeat constructor|].
  apply bind_Raise_inv in H as [H|(reversed & Hrev & H)].
  { unfold py_reversed in H. apply bind_Raise_inv in H as [H|(l & _ & H)]; [|discriminate].
    destruct raw; try discriminate; injection H as <-; left; reflexivity. }
  apply bind_Raise_inv in H as [H|(filtered & Hfil & H)].
  - exact (filter_stack_trace_Raise _ _ _ H).
  - exact (methods_of_frames_Raise _ _ _ _ _ _ H).
Qed.

Lemma methods_of_threads_Raise (pf : string) (mf : option string)
    (threads : list json) (e : exn) :
  methods_of_threads str_of_nonstring pf mf threads = Raise e -> extractor_exn mf e.
Proof.
  induction threads as [|thread threads IH]; intros H; simpl in H; [discriminate|].
  apply bind_Raise_inv in H as [H|(here & _ & H)]; [exact (methods_of_thread_Raise _ _ _ _ H)|].
  apply bind_Raise_inv in H as [H|(more & _ & H)]; [exact (IH H) | discriminate].
Qed.

Lemma extract_Raise (thread_dump : json) (pf : string) (mf : option string) (e : exn) :
  extract_methods_with_depth str_of_nonstring thread_dump pf mf = Raise e ->
  extractor_exn mf e.
Proof.
  unfold extract_methods_with_depth. intros H.
  apply bind_Raise_inv in H as [H|(tv & _ & H)].
  { apply getitem_Raise in H as [->| ->]; [left; reflexivity|].
    right; right; left. eexists. split; [reflexivity|repeat constructor]. }
  apply bind_Raise_inv in H as [H|(threads & _ & H)].
  { destruct tv; try discriminate; injection H as <-; left; reflexivity. }
  exact (methods_of_threads_Raise _ _ _ _ H).
Qed.

(** X6.  The extractor raises nothing but [TypeError], [AttributeError],
    [KeyError] for one of the five keys it reads, and [ValueError]; the
    last only for a non-empty method filter that does not contain exactly
    one ['#']. *)
Theorem extract_raises_only (thread_dump : json) (package_filter : string)
    (method_filter : option string) (e : exn) :
  extract_methods_with_depth str_of_nonstring thread_dump package_filter method_filter = Raise e ->
  extractor_exn method_filter e.
Proof. apply extract_Raise. Qed.

Lemma methods_of_thread_wf (pf : string) (mk : marker) (thread : json) :
  thread_wf thread -> marker_wf mk ->
  exists out, methods_of_thread str_of_nonstring pf (marker_string mk) thread = Ok out.
Proof.
  intros (state & frames & Hstate & Hstack & Hframes) Hmk.
  unfold methods_of_thread. rewrite Hstate, bind_Ok.
  destruct (py_eq_str (JStr state) "RUNNABLE"); [|eauto].
  rewrite Hstack, bind_Ok. unfold py_reversed. cbn [py_iter]. rewrite !bind_Ok.
  assert (Hrev : Forall (fun j => is_Some (frame_view j)) (rev frames)).
  { apply Forall_forall. intros j Hj. apply (proj1 (Forall_forall _ _) Hframes).
    apply list_elem_of_In, in_rev, list_elem_of_In, Hj. }
  destruct (filter_stack_trace_wf _ _ Hrev Hmk) as (filtered & -> & Hfiltered).
  rewrite bind_Ok. apply methods_of_frames_wf, Hfiltered.
Qed.

Lemma methods_of_threads_wf (pf : string) (mk : marker) (threads : list json) :
  Forall thread_wf threads -> marker_wf mk ->
  exists out, methods_of_threads str_of_nonstring pf (marker_string mk) threads = Ok out.
Proof.
  intros Hthreads Hmk. induction Hthreads as [|thread threads Hthread _ [more IH]]; simpl; eauto.
  destruct (methods_of_thread_wf pf mk thread Hthread Hmk) as [here ->].
  rewrite IH. simpl. eauto.
Qed.

(** X7.  On a thread dump of the expected shape and with a method filter
    that is absent, empty, or two names joined by one ['#'], the extractor
    returns a result: it raises nothing. *)
Theorem extract_total_on_expected_shape (thread_dump : json) (package_filter : string)
    (mk : marker) :
  dump_wf thread_dump -> marker_wf mk ->
  exists out,
    extract_methods_with_depth str_of_nonstring thread_dump package_filter
      (marker_string mk) = Ok out.
Proof.
  intros (threads & Hthreads & Hwf) Hmk. unfold extract_methods_with_depth.
  rewrite Hthreads. simpl. apply methods_of_threads_wf; assumption.
Qed.

End ExtractorFurther.

(** ** What the aggregate holds *)

Lemma occurrences_nonneg (method : string) (obs : list (string * nat * json)) :
  0 <= occurrences method obs.
Proof.
  induction obs as [|[[k d] s] obs IH]; simpl; [lia|].
  destruct (String.eqb k method); lia.
Qed.

Lemma depth_total_nonneg (method : string) (obs : list (string * nat * json)) :
  0 <= depth_total method obs.
Proof.
  induction obs as [|[[k d] s] obs IH]; simpl; [lia|].
  destruct (String.eqb k method); lia.
Qed.

Lemma depth_total_unobserved (method : string) (obs : list (string * nat * json)) :
  occurrences method obs = 0 -> depth_total method obs = 0.
Proof.
  induction obs as [|[[k d] s] obs IH]; simpl; [reflexivity|].
  pose proof (occurrences_nonneg method obs).
  destruct (String.eqb k method); intros; [lia | apply IH; lia].
Qed.

Lemma depth_total_bounded (method : string) (obs : list (string * nat * json)) (bound : nat) :
  Forall (fun o => (o.1.2 <= bound)%nat) obs ->
  depth_total method obs <= Z.of_nat bound * occurrences method obs.
Proof.
  induction 1 as [|[[k d] s] obs Hd _ IH]; simpl in *; [lia|].
  destruct (String.eqb k method); lia.
Qed.

Lemma occurrences_Permutation (method : string) (obs obs' : list (string * nat * json)) :
  Permutation obs obs' -> occurrences method obs = occurrences method obs'.
Proof.
  induction 1 as [|[[k d] s] ? ? _ IH|[[k d] s] [[k' d'] s'] ?|? ? ? _ IH1 _ IH2];
    simpl; lia.
Qed.

Lemma depth_total_Permutation (method : string) (obs obs' : list (string * nat * json)) :
  Permutation obs obs' -> depth_total method obs = depth_total method obs'.
Proof.
  induction 1 as [|[[k d] s] ? ? _ IH|[[k d] s] [[k' d'] s'] ?|? ? ? _ IH1 _ IH2];
    simpl; lia.
Qed.

Lemma foldl_observe_depth_counts (obs : list (string * nat * json)) (st : aggregate)
    (method : string) :
  depth_counts (foldl observe st obs) !! method =
    if occurrences method obs =? 0 then depth_counts st !! method
    else Some (get0 (depth_counts st) method + occurrences method obs).
Proof.
  revert st. induction obs as [|[[k d] s] obs IH]; intros st; simpl; [reflexivity|].
  rewrite IH. pose proof (occurrences_nonneg method obs) as Hocc. unfold get0. simpl.
  destruct (String.eqb_spec k method) as [->|Hne].
  - rewrite lookup_insert_eq. simpl.
    destruct (Z.eqb_spec (occurrences method obs) 0) as [->|_];
      destruct (Z.eqb_spec (1 + occurrences method obs) 0); try lia; f_equal; lia.
  - rewrite lookup_insert_ne by exact Hne. reflexivity.
Qed.

Lemma foldl_observe_depth_sums (obs : list (string * nat * json)) (st : aggregate)
    (method : string) :
  depth_sums (foldl observe st obs) !! method =
    if occurrences method obs =? 0 then depth_sums st !! method
    else Some (get0 (depth_sums st) method + depth_total method obs).
Proof.
  revert st. induction obs as [|[[k d] s] obs IH]; intros st; simpl; [reflexivity|].
  rewrite IH. pose proof (occurrences_nonneg method obs) as Hocc. unfold get0. simpl.
  destruct (String.eqb_spec k method) as [->|Hne].
  - rewrite lookup_insert_eq. simpl.
    destruct (Z.eqb_spec (occurrences method obs) 0) as [Hz|_];
      destruct (Z.eqb_spec (1 + occurrences method obs) 0); try lia; f_equal.
    + rewrite (depth_total_unobserved _ _ Hz). lia.
    + lia.
  - rewrite lookup_insert_ne by exact Hne. reflexivity.
Qed.

Lemma foldl_observe_get0_counts (obs : list (string * nat * json)) (st : aggregate)
    (method : string) :
  get0 (depth_counts (foldl observe st obs)) method =
    get0 (depth_counts st) method + occurrences method obs.
Proof.
  unfold get0 at 1. rewrite foldl_observe_depth_counts.
  destruct (Z.eqb_spec (occurrences method obs) 0) as [->|_]; [unfold get0; lia|reflexivity].
Qed.

Lemma foldl_observe_get0_sums (obs : list (string * nat * json)) (st : aggregate)
    (method : string) :
  get0 (depth_sums (foldl observe st obs)) method =
    get0 (depth_sums st) method + depth_total method obs.
Proof.
  unfold get0 at 1. rewrite foldl_observe_depth_sums.
  destruct (Z.eqb_spec (occurrences method obs) 0) as [Hz|_]; [|reflexivity].
  rewrite (depth_total_unobserved _ _ Hz). unfold get0. lia.
Qed.

(** X8.  Folding observations into an aggregate adds, for every method,
    the number of its observations to its depth-count and the sum of their
    depths to its depth-sum; the order of the observations does not
    matter: a permutation of them gives the same depth-sums and
    depth-counts, and the same items of [method_counts] up to order. *)
Theorem aggregation_counts_and_is_order_insensitive
    (obs obs' : list (string * nat * json)) (st : aggregate) :
  agg_inv st -> Permutation obs obs' ->
  (forall method,
     get0 (depth_counts (foldl observe st obs)) method =
       get0 (depth_counts st) method + occurrences method obs /\
     get0 (depth_sums (foldl observe st obs)) method =
       get0 (depth_sums st) method + depth_total method obs) /\
  depth_counts (foldl observe st obs) = depth_counts (foldl observe st obs') /\
  depth_sums (foldl observe st obs) = depth_sums (foldl observe st obs') /\
  Permutation (method_counts (foldl observe st obs)) (method_counts (foldl observe st obs')).
Proof.
  intros Hinv Hperm.
  assert (Hcounts : depth_counts (foldl observe st obs) = depth_counts (foldl observe st obs')).
  { apply map_eq. intros method. rewrite !foldl_observe_depth_counts.
    rewrite (occurrences_Permutation _ _ _ Hperm). reflexivity. }
  split; [|split; [exact Hcounts|split]].
  - intros method. split; [apply foldl_observe_get0_counts | apply foldl_observe_get0_sums].
  - apply map_eq. intros method. rewrite !foldl_observe_depth_sums.
    rewrite (occurrences_Permutation _ _ _ Hperm), (depth_total_Permutation _ _ _ Hperm).
    reflexivity.
  - destruct (foldl_observe_inv obs st Hinv) as (Hnd & Heq & _).
    destruct (foldl_observe_inv obs' st Hinv) as (Hnd' & Heq' & _).
    apply (list_to_map_inj (M:=gmap string)); try assumption.
    rewrite <- Heq, <- Heq'. exact Hcounts.
Qed.

(** ** What a run does *)

Lemma events_bind {A B : Type} (m : logged A) (k : A -> logged B) :
  events (m ≫= k) =
    (events m ++ match outcome m with
                 | Ok a => events (k a)
                 | Raise _ => []
                 end)%list.
Proof.
  unfold mbind, logged_bind. destruct (outcome m); simpl; [reflexivity|].
  rewrite app_nil_r. reflexivity.
Qed.

Section RunProperties.

Variable str_of_nonstring : json -> string.
Variable random : nat -> Q.

Lemma process_sample_Ok_fold (network : string -> nat -> response)
    (url pf : string) (mf : option string) (st st' : aggregate) (sample : nat) :
  outcome (process_sample str_of_nonstring network url pf mf st sample) = Ok st' ->
  st' = foldl observe st (sample_observations str_of_nonstring network url pf mf sample).
Proof.
  unfold process_sample, get_thread_dump, sample_observations.
  destruct (network url sample) as [| |parsed]; simpl; try (intros [= <-]; reflexivity).
  unfold mret, logged_ret. rewrite bind_Logged_Ok.
  destruct (truthy parsed); simpl; [|intros [= <-]; reflexivity].
  rewrite outcome_bind. simpl.
  destruct (extract_methods_with_depth _ _ _ _); simpl; [|discriminate].
  intros [= <-]. reflexivity.
Qed.

Lemma sampling_loop_Ok_fold (network : string -> nat -> response)
    (url pf : string) (mf : option string) (samples : Z) (lo hi : Q)
    (range : list nat) (st st' : aggregate) :
  outcome (sampling_loop str_of_nonstring network random url pf mf samples lo hi range st) = Ok st' ->
  st' = foldl observe st
          (flat_map (sample_observations str_of_nonstring network url pf mf) range).
Proof.
  revert st. induction range as [|i range IH]; intros st H; cbn [sampling_loop] in H.
  - injection H as <-. reflexivity.
  - apply outcome_bind_Ok_inv in H as (st1 & Hstep & H).
    rewrite outcome_sample_step in Hstep.
    destruct (py_sleep _); [|discriminate].
    apply process_sample_Ok_fold in Hstep. subst st1.
    simpl. rewrite foldl_app. apply IH, H.
Qed.

(** The report of a run that returns, in terms of its observations. *)
Lemma sample_thread_dumps_report (network : string -> nat -> response)
    (url pf : string) (mf : option string) (samples : Z) (lo hi : Q)
    (recs : list record) :
  outcome (sample_thread_dumps str_of_nonstring network random url pf mf samples lo hi) = Ok recs ->
  exists st,
    st = foldl observe no_observations
           (run_observations str_of_nonstring network url pf mf samples) /\
    agg_inv st /\
    recs = sort_by_avg_depth (map (row_of (depth_sums st)) (method_counts st)).
Proof.
  intros H.
  apply sample_thread_dumps_Ok_inv in H as (st & combined & Hloop & Hcombine & ->).
  pose proof (sampling_loop_inv _ _ _ _ _ _ _ _ _ _ _ _ no_observations_inv Hloop) as Hinv.
  rewrite (combine_rows _ _ _ (agg_inv_items st Hinv)) in Hcombine.
  injection Hcombine as <-.
  exists st. split; [|split; [exact Hinv | reflexivity]].
  apply sampling_loop_Ok_fold in Hloop. exact Hloop.
Qed.

Lemma elem_of_report (st : aggregate) (method : string) (count : Z) (avg : Q) :
  agg_inv st ->
  (method, count, avg) ∈ sort_by_avg_depth (map (row_of (depth_sums st)) (method_counts st)) <->
  depth_counts st !! method = Some count /\
  avg = (inject_Z (get0 (depth_sums st) method) / inject_Z count)%Q.
Proof.
  intros (Hnd & Hcounts & Hpos).
  rewrite sort_by_avg_depth_Permutation, Hcounts.
  rewrite <- (elem_of_list_to_map (M:=gmap string)) by exact Hnd.
  change (map (row_of (depth_sums st)) (method_counts st))
    with (row_of (depth_sums st) <$> method_counts st).
  rewrite list_elem_of_fmap. split.
  - intros ([m c] & Heq & Hin). unfold row_of in Heq. simpl in Heq.
    injection Heq as -> -> ->. auto.
  - intros [Hin ->]. exists (method, count). split; [reflexivity|exact Hin].
Qed.

(** X9.  The report of a run that returns has exactly one record for each
    method observed in the run; its count is the number of observations of
    the method over all samples, and its average depth is the sum of the
    observed depths divided by that number. *)
Theorem report_counts_observations (network : string -> nat -> response)
    (url package_filter : string) (method_filter : option string) (samples : Z)
    (min_interval max_interval : Q) (recs : list record) :
  outcome (sample_thread_dumps str_of_nonstring network random url package_filter
             method_filter samples min_interval max_interval) = Ok recs ->
  (forall method count avg, (method, count, avg) ∈ recs ->
     count = occurrences method
               (run_observations str_of_nonstring network url package_filter
                  method_filter samples) /\
     avg = (inject_Z (depth_total method
                        (run_observations str_of_nonstring network url package_filter
                           method_filter samples))
            / inject_Z count)%Q) /\
  (forall method,
     1 <= occurrences method
            (run_observations str_of_nonstring network url package_filter
               method_filter samples) ->
     exists avg,
       (method,
        occurrences method
          (run_observations str_of_nonstring network url package_filter
             method_filter samples),
        avg) ∈ recs) /\
  NoDup (map (fun r : record => r.1.1) recs).
Proof.
  intros H. apply sample_thread_dumps_report in H as (st & Hst & Hinv & ->).
  set (obs := run_observations _ _ _ _ _ _) in *.
  assert (Hlookup : forall method,
    depth_counts st !! method =
      if occurrences method obs =? 0 then None else Some (occurrences method obs)).
  { intros method. rewrite Hst, foldl_observe_depth_counts. simpl.
    rewrite lookup_empty. reflexivity. }
  assert (Hsum : forall method, get0 (depth_sums st) method = depth_total method obs).
  { intros method. rewrite Hst, foldl_observe_get0_sums. reflexivity. }
  split; [|split].
  - intros method count avg Hin. apply (elem_of_report _ _ _ _ Hinv) in Hin as [Hc ->].
    rewrite Hlookup in Hc.
    destruct (occurrences method obs =? 0); [discriminate|]. injection Hc as <-.
    rewrite Hsum. auto.
  - intros method Hocc. eexists. apply (elem_of_report _ _ _ _ Hinv). split; [|reflexivity].
    rewrite Hlookup. destruct (Z.eqb_spec (occurrences method obs) 0); [lia|reflexivity].
  - destruct Hinv as (Hnd & _ & _).
    rewrite sort_by_avg_depth_Permutation, map_map. simpl. exact Hnd.
Qed.

Lemma report_record_inv (network : string -> nat -> response)
    (url pf : string) (mf : option string) (samples : Z) (lo hi : Q)
    (recs : list record) (method : string) (count : Z) (avg : Q) :
  outcome (sample_thread_dumps str_of_nonstring network random url pf mf samples lo hi) = Ok recs ->
  (method, count, avg) ∈ recs ->
  1 <= count /\
  count = occurrences method (run_observations str_of_nonstring network url pf mf samples) /\
  avg = (inject_Z (depth_total method
                     (run_observations str_of_nonstring network url pf mf samples))
         / inject_Z count)%Q.
Proof.
  intros H Hin. apply sample_thread_dumps_report in H as (st & Hst & Hinv & ->).
  apply (elem_of_report _ _ _ _ Hinv) in Hin as [Hc ->].
  rewrite Hst, foldl_observe_depth_counts in Hc. simpl in Hc. rewrite lookup_empty in Hc.
  pose proof (occurrences_nonneg method
                (run_observations str_of_nonstring network url pf mf samples)) as Hocc.
  destruct (Z.eqb_spec (occurrences method
              (run_observations str_of_nonstring network url pf mf samples)) 0);
    [discriminate|].
  injection Hc as <-. rewrite Hst, foldl_observe_get0_sums. simpl.
  unfold get0 at 1. rewrite lookup_empty. simpl. repeat split; lia.
Qed.

(** X10.  No average depth of a report is negative, and none exceeds a
    bound that holds for every depth observed in the run. *)
Theorem report_average_within_observed_depths (network : string -> nat -> response)
    (url package_filter : string) (method_filter : option string) (samples : Z)
    (min_interval max_interval : Q) (recs : list record) :
  outcome (sample_thread_dumps str_of_nonstring network random url package_filter
             method_filter samples min_interval max_interval) = Ok recs ->
  forall method count avg, (method, count, avg) ∈ recs ->
    (0 <= avg)%Q /\
    forall bound : nat,
      Forall (fun o => (o.1.2 <= bound)%nat)
        (run_observations str_of_nonstring network url package_filter method_filter samples) ->
      (avg <= inject_Z (Z.of_nat bound))%Q.
Proof.
  intros H method count avg Hin.
  destruct (report_record_inv _ _ _ _ _ _ _ _ _ _ _ H Hin) as (Hpos & Hcount & ->).
  set (obs := run_observations _ _ _ _ _ _) in *.
  pose proof (depth_total_nonneg method obs) as Htotal.
  destruct count as [|p|p]; try lia.
  split.
  - rewrite <- Qmake_Qdiv. unfold Qle. simpl. lia.
  - intros bound Hbound. rewrite <- Qmake_Qdiv. unfold Qle. simpl.
    pose proof (depth_total_bounded method obs bound Hbound) as Hle.
    rewrite <- Hcount in Hle. lia.
Qed.

(** X11.  A run with a sample count of zero or less fetches nothing: it
    logs the start, the estimate and the end, and returns the empty
    report. *)
Theorem no_samples_no_fetch (network : string -> nat -> response)
    (url package_filter : string) (method_filter : option string) (samples : Z)
    (min_interval max_interval : Q) :
  samples <= 0 ->
  sample_thread_dumps str_of_nonstring network random url package_filter
      method_filter samples min_interval max_interval =
    Logged
      [InfoStarted url;
       InfoEstimated (inject_Z samples * ((max_interval - min_interval) / 2 + min_interval));
       InfoFinished url]
      (Ok []).
Proof.
  intros Hle. unfold sample_thread_dumps.
  replace (Z.to_nat samples) with 0%nat by lia. reflexivity.
Qed.

Lemma process_sample_events (network : string -> nat -> response)
    (url pf : string) (mf : option string) (st : aggregate) (sample : nat) :
  Forall (fun ev => ev = ErrorFetching \/ ev = ErrorParsing \/
                    ev = WarningSkipping (Z.of_nat sample + 1))
    (events (process_sample str_of_nonstring network url pf mf st sample)).
Proof.
  unfold process_sample, get_thread_dump.
  destruct (network url sample) as [| |parsed]; simpl.
  - constructor; [auto|]. constructor; [auto|constructor].
  - constructor; [auto|]. constructor; [auto|constructor].
  - unfold mret, logged_ret. rewrite bind_Logged_Ok. simpl.
    destruct (truthy parsed); simpl.
    + rewrite events_bind. simpl.
      destruct (extract_methods_with_depth _ _ _ _); simpl; constructor.
    + constructor; [auto|constructor].
Qed.

Lemma sample_step_events (network : string -> nat -> response)
    (url pf : string) (mf : option string) (samples : Z) (lo hi : Q)
    (st : aggregate) (sample : nat) :
  events (sample_step str_of_nonstring network random url pf mf samples lo hi st sample) =
    DebugWaiting (uniform random sample lo hi) (Z.of_nat sample + 1) samples
    :: match py_sleep (uniform random sample lo hi) with
       | Ok _ => events (process_sample str_of_nonstring network url pf mf st sample)
       | Raise _ => []
       end.
Proof.
  unfold sample_step. rewrite !events_bind. simpl.
  destruct (py_sleep _); simpl; [reflexivity|reflexivity].
Qed.

Lemma sampling_loop_events (network : string -> nat -> response)
    (url pf : string) (mf : option string) (samples : Z) (lo hi : Q)
    (range : list nat) (st : aggregate) :
  Forall (loop_event random lo hi samples range)
    (events (sampling_loop str_of_nonstring network random url pf mf samples lo hi range st)).
Proof.
  revert st. induction range as [|i range IH]; intros st; cbn [sampling_loop]; [constructor|].
  rewrite events_bind, sample_step_events.
  assert (Hmono : forall ev, loop_event random lo hi samples range ev ->
                             loop_event random lo hi samples (i :: range) ev).
  { intros [] Hev; simpl in *; try assumption.
    - destruct Hev as (? & j & ? & ? & ?). split; [assumption|].
      exists j. repeat split; try assumption. right. assumption.
    - destruct Hev as (j & ? & ?). exists j. split; [right|]; assumption. }
  apply Forall_app. split.
  - constructor.
    + simpl. split; [reflexivity|]. exists i. repeat split. left.
    + destruct (py_sleep _); [|constructor].
      eapply Forall_impl; [apply process_sample_events|].
      intros ev [->|[->| ->]]; simpl; auto. exists i. split; [left|reflexivity].
  - destruct (outcome _); [|constructor].
    eapply Forall_impl; [apply IH|]. exact Hmono.
Qed.

Lemma sample_thread_dumps_events (network : string -> nat -> response)
    (url pf : string) (mf : option string) (samples : Z) (lo hi : Q) :
  events (sample_thread_dumps str_of_nonstring network random url pf mf samples lo hi) =
    ([InfoStarted url; InfoEstimated (inject_Z samples * ((hi - lo) / 2 + lo))]
     ++ events (sampling_loop str_of_nonstring network random url pf mf samples lo hi
                  (seq 0 (Z.to_nat samples)) no_observations)
     ++ match outcome (sample_thread_dumps str_of_nonstring network random url pf mf
                         samples lo hi) with
        | Ok _ => [InfoFinished url]
        | Raise _ => []
        end)%list.
Proof.
  unfold sample_thread_dumps, report_estimated_time_remaining, log, lift.
  unfold mbind, logged_bind. simpl.
  destruct (outcome (sampling_loop _ _ _ _ _ _ _ _ _ _ _)) as [st|e]; simpl.
  - destruct (combine _ _ _); simpl; rewrite ?app_nil_r; reflexivity.
  - rewrite app_nil_r. reflexivity.
Qed.

(** X12.  A run logs that it finished exactly when it returns a report: a
    run that ends with an exception never logs the end of the session. *)
Theorem finished_logged_iff_returns (network : string -> nat -> response)
    (url package_filter : string) (method_filter : option string) (samples : Z)
    (min_interval max_interval : Q) :
  (exists recs,
     outcome (sample_thread_dumps str_of_nonstring network random url package_filter
                method_filter samples min_interval max_interval) = Ok recs) <->
  InfoFinished url ∈
    events (sample_thread_dumps str_of_nonstring network random url package_filter
              method_filter samples min_interval max_interval).
Proof.
  rewrite sample_thread_dumps_events. split.
  - intros [recs ->]. rewrite !elem_of_app. right; right. left.
  - intros Hin. apply elem_of_app in Hin as [Hin|Hin].
    { apply elem_of_cons in Hin as [Hin|Hin]; [discriminate|].
      apply elem_of_cons in Hin as [Hin|Hin]; [discriminate|inversion Hin]. }
    apply elem_of_app in Hin as [Hin|Hin].
    { pose proof (sampling_loop_events network url package_filter method_filter samples
                    min_interval max_interval (seq 0 (Z.to_nat samples)) no_observations) as Hev.
      apply (proj1 (Forall_forall _ _) Hev) in Hin. destruct Hin. }
    destruct (outcome _) as [recs|e]; [eauto | inversion Hin].
Qed.

Lemma uniform_between (call : nat) (lo hi : Q) :
  (lo <= hi)%Q -> (0 <= random call)%Q -> (random call <= 1)%Q ->
  (lo <= uniform random call lo hi)%Q /\ (uniform random call lo hi <= hi)%Q.
Proof. unfold uniform. intros. split; nra. Qed.

(** X13.  When the lower bound is at most the upper bound and the random
    source delivers values from 0 to 1, every wait the run logs is
    between the two bounds and belongs to a sample numbered from 1 to the
    sample count. *)
Theorem waits_within_bounds (network : string -> nat -> response)
    (url package_filter : string) (method_filter : option string) (samples : Z)
    (min_interval max_interval : Q) :
  (min_interval <= max_interval)%Q ->
  (forall i, (0 <= random i)%Q /\ (random i <= 1)%Q) ->
  forall interval sample total,
    DebugWaiting interval sample total ∈
      events (sample_thread_dumps str_of_nonstring network random url package_filter
                method_filter samples min_interval max_interval) ->
    (min_interval <= interval)%Q /\ (interval <= max_interval)%Q /\
    1 <= sample <= samples /\ total = samples.
Proof.
  intros Hbounds Hrandom interval sample total Hin.
  rewrite sample_thread_dumps_events in Hin.
  apply elem_of_app in Hin as [Hin|Hin].
  { apply elem_of_cons in Hin as [Hin|Hin]; [discriminate|].
    apply elem_of_cons in Hin as [Hin|Hin]; [discriminate|inversion Hin]. }
  apply elem_of_app in Hin as [Hin|Hin].
  - pose proof (sampling_loop_events network url package_filter method_filter samples
                  min_interval max_interval (seq 0 (Z.to_nat samples)) no_observations) as Hev.
    apply (proj1 (Forall_forall _ _) Hev) in Hin. simpl in Hin.
    destruct Hin as (-> & i & Hi & -> & ->). apply elem_of_seq in Hi.
    destruct (Hrandom i) as [H0 H1].
    destruct (uniform_between i _ _ Hbounds H0 H1) as [Hlo Hhi].
    repeat split; try assumption; lia.
  - destruct (outcome _); [|inversion Hin].
    apply list_elem_of_singleton in Hin. discriminate.
Qed.

(** X14.  Negative interval bounds are not rejected beforehand: with both
    bounds below zero and at least one sample, the run logs the start, the
    estimate and the first wait, and then raises [ValueError] from the
    sleep, before any fetch. *)
Theorem negative_intervals_raise_at_first_wait (network : string -> nat -> response)
    (url package_filter : string) (method_filter : option string) (samples : Z)
    (min_interval max_interval : Q) :
  (min_interval < 0)%Q -> (max_interval < 0)%Q ->
  (0 <= random 0)%Q -> (random 0 <= 1)%Q -> 1 <= samples ->
  sample_thread_dumps str_of_nonstring network random url package_filter
      method_filter samples min_interval max_interval =
    Logged
      [InfoStarted url;
       InfoEstimated (inject_Z samples * ((max_interval - min_interval) / 2 + min_interval));
       DebugWaiting (uniform random 0 min_interval max_interval) 1 samples]
      (Raise ValueError).
Proof.
  intros Hlo Hhi H0 H1 Hsamples.
  assert (Hneg : (uniform random 0 min_interval max_interval < 0)%Q)
    by (unfold uniform; nra).
  assert (Hsleep : py_sleep (uniform random 0 min_interval max_interval) = Raise ValueError).
  { unfold py_sleep. destruct (Qle_bool 0 _) eqn:Hle; [|reflexivity].
    apply Qle_bool_iff in Hle. lra. }
  unfold sample_thread_dumps.
  destruct (Z.to_nat samples) as [|n] eqn:Hn; [lia|].
  cbn [seq sampling_loop]. unfold sample_step. rewrite Hsleep. reflexivity.
Qed.




End RunProperties.

(** ** The order of the report *)

Lemma with_avg_insert_row (q : Q) (r : record) (rows : list record) :
  with_avg q (insert_row r rows) = with_avg q (r :: rows).
Proof.
  unfold with_avg. induction rows as [|r' rows IH]; simpl; [reflexivity|].
  destruct (Qle_bool (avg_depth r) (avg_depth r')) eqn:Hle; [reflexivity|].
  rewrite (filter_cons _ r'), IH, !(filter_cons _ r), !(filter_cons _ r').
  destruct (decide (Qeq_bool (avg_depth r') q = true)) as [Hr'|_];
    destruct (decide (Qeq_bool (avg_depth r) q = true)) as [Hr|_]; try reflexivity.
  apply Qeq_bool_iff in Hr, Hr'.
  assert (Hc : Qle_bool (avg_depth r) (avg_depth r') = true).
  { apply Qle_bool_iff. rewrite Hr, Hr'. apply Qle_refl. }
  congruence.
Qed.

(** X16.  The sort of the report is stable: the rows that have one and the
    same average depth come out in the order they went in. *)
Theorem sort_by_avg_depth_stable (q : Q) (rows : list record) :
  with_avg q (sort_by_avg_depth rows) = with_avg q rows.
Proof.
  induction rows as [|r rows IH]; simpl; [reflexivity|].
  rewrite with_avg_insert_row. unfold with_avg in *.
  rewrite !(filter_cons _ r), IH. reflexivity.
Qed.

(** ** Rounding and the written report *)

Lemma py_round_spec (q : Q) :
  2 * Zpos (Qden q) * py_round q - Zpos (Qden q) <= 2 * Qnum q /\
  2 * Qnum q <= 2 * Zpos (Qden q) * py_round q + Zpos (Qden q) /\
  (2 * Qnum q = 2 * Zpos (Qden q) * py_round q + Zpos (Qden q) \/
   2 * Qnum q = 2 * Zpos (Qden q) * py_round q - Zpos (Qden q) ->
   Z.even (py_round q) = true).
Proof.
  destruct q as [n d]. unfold py_round. simpl.
  pose proof (Z.div_mod n (Zpos d) ltac:(lia)) as Hdm.
  pose proof (Z.mod_pos_bound n (Zpos d) ltac:(lia)) as Hmod.
  set (fl := n / Zpos d) in *. set (rest := n mod Zpos d) in *.
  destruct (Z.ltb_spec (2 * rest) (Zpos d)) as [Hlt|Hge].
  { repeat split; try lia. }
  destruct (Z.ltb_spec (Zpos d) (2 * rest)) as [Hgt|Hle].
  { repeat split; try lia. }
  destruct (Z.even fl) eqn:Heven.
  - repeat split; try lia. intros _. exact Heven.
  - repeat split; try lia. intros _.
    rewrite Z.even_add, Heven. reflexivity.
Qed.

Lemma py_round_monotone (q q' : Q) :
  (q <= q')%Q -> py_round q <= py_round q'.
Proof.
  intros Hle. unfold Qle in Hle.
  destruct (py_round_spec q) as (Hlo & _ & Htie).
  destruct (py_round_spec q') as (_ & Hhi' & Htie').
  set (r := py_round q) in *. set (r' := py_round q') in *.
  set (n := Qnum q) in *. set (n' := Qnum q') in *.
  set (d := Zpos (Qden q)) in *. set (d' := Zpos (Qden q')) in *.
  assert (Hd : 0 < d) by (unfold d; lia). assert (Hd' : 0 < d') by (unfold d'; lia).
  destruct (Z_le_gt_dec r r') as [|Hgt]; [assumption|exfalso].
  assert (H1 : (2 * d * r - d) * d' <= 2 * n * d') by nia.
  assert (H2 : 2 * n' * d <= (2 * d' * r' + d') * d) by nia.
  assert (Hdiff : r = r' + 1) by nia.
  assert (Heq : 2 * n = 2 * d * r - d) by nia.
  assert (Heq' : 2 * n' = 2 * d' * r' + d') by nia.
  specialize (Htie (or_intror Heq)). specialize (Htie' (or_introl Heq')).
  rewrite Hdiff, Z.even_add, Htie' in Htie. discriminate.
Qed.

(** X17.  [round] as the report uses it gives an integer at distance at
    most one half from the average, the even one of the two at distance
    exactly one half; it leaves integers as they are and preserves the
    order of the averages. *)
Theorem py_round_nearest_ties_to_even (q : Q) :
  (inject_Z (py_round q) - (1 # 2) <= q)%Q /\
  (q <= inject_Z (py_round q) + (1 # 2))%Q /\
  ((q == inject_Z (py_round q) + (1 # 2))%Q \/ (q == inject_Z (py_round q) - (1 # 2))%Q ->
   Z.even (py_round q) = true) /\
  (forall z, py_round (inject_Z z) = z) /\
  (forall q', (q <= q')%Q -> py_round q <= py_round q').
Proof.
  destruct (py_round_spec q) as (Hlo & Hhi & Htie).
  destruct q as [n d]. simpl in *. set (r := py_round (n # d)) in *.
  repeat split.
  - unfold Qle, Qminus, Qplus, Qopp, inject_Z. simpl. lia.
  - unfold Qle, Qplus, inject_Z. simpl. lia.
  - intros [H|H]; apply Htie; unfold Qeq, Qminus, Qplus, Qopp, inject_Z in H; simpl in H; lia.
  - intros z. unfold py_round. simpl. rewrite Z.div_1_r, Z.mod_1_r. reflexivity.
  - intros q'. apply py_round_monotone.
Qed.

Lemma py_round_nonneg (q : Q) : (0 <= q)%Q -> 0 <= py_round q.
Proof. intros H. apply (py_round_monotone 0 q H). Qed.

Lemma report_Sorted (str_of_nonstring : json -> string) (random : nat -> Q)
    (network : string -> nat -> response) (url pf : string) (mf : option string)
    (samples : Z) (lo hi : Q) (recs : list record) :
  outcome (sample_thread_dumps str_of_nonstring network random url pf mf samples lo hi) = Ok recs ->
  Sorted avg_le recs.
Proof.
  intros H. apply sample_thread_dumps_Ok_inv in H as (st & combined & _ & _ & ->).
  apply sort_by_avg_depth_Sorted.
Qed.

Lemma report_record_nonneg (str_of_nonstring : json -> string) (random : nat -> Q)
    (network : string -> nat -> response) (url pf : string) (mf : option string)
    (samples : Z) (lo hi : Q) (recs : list record) (method : string) (count : Z) (avg : Q) :
  outcome (sample_thread_dumps str_of_nonstring network random url pf mf samples lo hi) = Ok recs ->
  (method, count, avg) ∈ recs -> 1 <= count /\ (0 <= avg)%Q.
Proof.
  intros H Hin.
  destruct (report_record_inv _ _ _ _ _ _ _ _ _ _ _ _ _ H Hin) as (Hpos & _ & ->).
  split; [exact Hpos|].
  pose proof (depth_total_nonneg method
                (run_observations str_of_nonstring network url pf mf samples)) as Htotal.
  destruct count as [|p|p]; try lia.
  rewrite <- Qmake_Qdiv. unfold Qle. simpl. lia.
Qed.

(** X18.  Writing the report of a run gives the header row followed by one
    row per record; in every data row the count is at least 1 and the
    rounded average depth is not negative, and the rounded average depths
    do not decrease from one row to the next. *)
Theorem written_report_rows_ordered (str_of_nonstring : json -> string)
    (random : nat -> Q) (network : string -> nat -> response)
    (url package_filter : string) (method_filter : option string) (samples : Z)
    (min_interval max_interval : Q) (recs : list record) (filename : string) :
  outcome (sample_thread_dumps str_of_nonstring network random url package_filter
             method_filter samples min_interval max_interval) = Ok recs ->
  file_rows (write_combined_report recs filename) !! 0%nat =
    Some [CStr "Method"; CStr "Count"; CStr "Average Depth"] /\
  length (file_rows (write_combined_report recs filename)) = S (length recs) /\
  forall j row,
    file_rows (write_combined_report recs filename) !! S j = Some row ->
    exists method count rounded,
      row = [CStr method; CInt count; CInt rounded] /\ 1 <= count /\ 0 <= rounded /\
      forall method' count' rounded',
        file_rows (write_combined_report recs filename) !! S (S j) =
          Some [CStr method'; CInt count'; CInt rounded'] ->
        rounded <= rounded'.
Proof.
  intros H. split; [reflexivity|]. split; [simpl; rewrite length_map; reflexivity|].
  intros j row Hrow. simpl in Hrow.
  change (map report_row recs) with (report_row <$> recs) in Hrow.
  rewrite list_lookup_fmap in Hrow.
  destruct (recs !! j) as [[[method count] avg]|] eqn:Hj; [|discriminate].
  injection Hrow as <-.
  destruct (report_record_nonneg _ _ _ _ _ _ _ _ _ _ _ _ _ H
              (list_elem_of_lookup_2 _ _ _ Hj)) as [Hcount Havg].
  exists method, count, (py_round avg). repeat split; try assumption.
  - apply py_round_nonneg, Havg.
  - intros method' count' rounded' Hnext. simpl in Hnext.
    change (map report_row recs) with (report_row <$> recs) in Hnext.
    rewrite list_lookup_fmap in Hnext.
    destruct (recs !! S j) as [[[m' c'] avg']|] eqn:Hj'; [|discriminate].
    injection Hnext as _ _ <-. apply py_round_monotone.
    exact (Sorted_adjacent avg_le _ j _ _ (report_Sorted _ _ _ _ _ _ _ _ _ _ H) Hj Hj').
Qed.

(** ** Reading the configuration *)

Lemma getitem_JObj (fields : list (string * json)) (k : string) :
  getitem (JObj fields) k =
    match assoc k fields with
    | Some v => Ok v
    | None => Raise (KeyError k)
    end.
Proof. reflexivity. Qed.

(** X19.  Reading the configuration checks that the six required keys are
    there and nothing else: when they are, it returns their values as they
    are, of whatever type, and the output file is the non-empty [--output]
    argument, else the configured ["output_file"], else
    [method_counts.csv]; when one is missing, it raises [KeyError] for the
    first missing one, in the order the keys are read. *)
Theorem read_config_required_keys (args_output : option string)
    (fields : list (string * json)) :
  match list_find (fun k => assoc k fields = None) required_keys with
  | Some (_, k) => read_config args_output (JObj fields) = Raise (KeyError k)
  | None =>
      exists url package_filter method_filter samples min_interval max_interval,
        assoc "url" fields = Some url /\
        assoc "package_filter" fields = Some package_filter /\
        assoc "method_filter" fields = Some method_filter /\
        assoc "samples" fields = Some samples /\
        assoc "min_interval" fields = Some min_interval /\
        assoc "max_interval" fields = Some max_interval /\
        read_config args_output (JObj fields) =
          Ok (Settings url package_filter method_filter samples min_interval max_interval
                (chosen_output_file args_output fields))
  end.
Proof.
  unfold read_config, required_keys. rewrite !getitem_JObj.
  cbn [list_find]. unfold chosen_output_file, py_get.
  repeat match goal with
  | |- context [decide (assoc ?k fields = None)] =>
      destruct (assoc k fields) eqn:?; cbn [decide_rel decide option_eq_None_dec
        option_eq_dec fmap option_fmap option_map prod_map fst snd];
      try reflexivity
  end.
  all: try (simpl; reflexivity).
  eexists _, _, _, _, _, _. repeat (split; [reflexivity|]).
  simpl. destruct args_output as [out|]; [destruct (String.eqb out "")|]; reflexivity.
Qed.

(** ** The further properties at the scenarios *)

Lemma extract_depth_is_position_witness :
  getitem scenario_dump "threads" = Ok (JArr [thread "RUNNABLE" scenario_stack]) /\
  extract_methods_with_depth no_other_values scenario_dump "A" (Some "B#bar") =
    Ok [("A.foo", 1%nat, JStr "RUNNABLE")] /\
  String.prefix "A" "A.foo" = true.
Proof.
  split; [reflexivity|]. split; [reflexivity|].
  exact (proj1 (extract_depth_is_position no_other_values scenario_dump _ "A" (Some "B#bar")
                  [("A.foo", 1%nat, JStr "RUNNABLE")] eq_refl eq_refl
                  "A.foo" 1%nat (JStr "RUNNABLE") (list_elem_of_here _ _))).
Defined.

Lemma extract_ignores_other_threads_witness :
  getitem waiting_dump "threads" =
    Ok (JArr [JObj [("threadState", JStr "WAITING")]; thread "RUNNABLE" scenario_stack]) /\
  Forall (fun t => exists state, getitem t "threadState" = Ok state)
    [JObj [("threadState", JStr "WAITING")]; thread "RUNNABLE" scenario_stack] /\
  extract_methods_with_depth no_other_values waiting_dump "A" None =
  extract_methods_with_depth no_other_values
    (JObj [("threads", JArr (filter (fun t => is_runnable t = true)
              [JObj [("threadState", JStr "WAITING")]; thread "RUNNABLE" scenario_stack]))])
    "A" None.
Proof.
  assert (Hstates : Forall (fun t => exists state, getitem t "threadState" = Ok state)
            [JObj [("threadState", JStr "WAITING")]; thread "RUNNABLE" scenario_stack]).
  { constructor; [eexists; reflexivity|]. constructor; [eexists; reflexivity|constructor]. }
  split; [reflexivity|]. split; [exact Hstates|].
  exact (extract_ignores_other_threads no_other_values waiting_dump _ "A" None
           eq_refl Hstates).
Defined.

Lemma extract_raises_only_witness :
  extract_methods_with_depth no_other_values (JObj [("status", JStr "UP")]) "A" None =
    Raise (KeyError "threads") /\
  extractor_exn None (KeyError "threads").
Proof.
  split; [reflexivity|].
  exact (extract_raises_only no_other_values (JObj [("status", JStr "UP")]) "A" None
           (KeyError "threads") eq_refl).
Defined.

Lemma extract_total_on_expected_shape_witness :
  dump_wf scenario_dump /\ marker_wf (Marker "B" "bar") /\
  exists out,
    extract_methods_with_depth no_other_values scenario_dump "A"
      (marker_string (Marker "B" "bar")) = Ok out.
Proof.
  assert (Hdump : dump_wf scenario_dump).
  { exists [thread "RUNNABLE" scenario_stack]. split; [reflexivity|].
    constructor; [|constructor]. exists "RUNNABLE", scenario_stack.
    split; [reflexivity|]. split; [reflexivity|].
    repeat (constructor; [eexists; reflexivity|]). constructor. }
  assert (Hmk : marker_wf (Marker "B" "bar")) by (split; reflexivity).
  split; [exact Hdump|]. split; [exact Hmk|].
  exact (extract_total_on_expected_shape no_other_values scenario_dump "A" _ Hdump Hmk).
Defined.

Lemma aggregation_counts_and_is_order_insensitive_witness :
  agg_inv no_observations /\
  Permutation [("X.y", 2%nat, JNull); ("Lib.a", 1%nat, JNull)]
              [("Lib.a", 1%nat, JNull); ("X.y", 2%nat, JNull)] /\
  depth_sums (foldl observe no_observations [("X.y", 2%nat, JNull); ("Lib.a", 1%nat, JNull)]) =
  depth_sums (foldl observe no_observations [("Lib.a", 1%nat, JNull); ("X.y", 2%nat, JNull)]).
Proof.
  split; [exact no_observations_inv|]. split; [apply perm_swap|].
  exact (proj1 (proj2 (proj2 (aggregation_counts_and_is_order_insensitive _ _ _
                                no_observations_inv (perm_swap _ _ _))))).
Defined.

Lemma report_counts_observations_witness :
  outcome (sample_thread_dumps no_other_values scenario_C_network midpoint "u" "X" None 3 1 3) =
    Ok [("X.y", 2, 6 # 2)] /\
  2 = occurrences "X.y" (run_observations no_other_values scenario_C_network "u" "X" None 3).
Proof.
  split; [reflexivity|].
  exact (proj1 (proj1 (report_counts_observations no_other_values midpoint
                         scenario_C_network "u" "X" None 3 1 3 _ eq_refl)
                  "X.y" 2 (6 # 2) (list_elem_of_here _ _))).
Defined.

Lemma report_average_within_observed_depths_witness :
  outcome (sample_thread_dumps no_other_values scenario_C_network midpoint "u" "X" None 3 1 3) =
    Ok [("X.y", 2, 6 # 2)] /\
  (0 <= 6 # 2)%Q.
Proof.
  split; [reflexivity|].
  exact (proj1 (report_average_within_observed_depths no_other_values midpoint
                  scenario_C_network "u" "X" None 3 1 3 _ eq_refl
                  "X.y" 2 (6 # 2) (list_elem_of_here _ _))).
Defined.

Lemma no_samples_no_fetch_witness :
  0 <= 0 /\
  sample_thread_dumps no_other_values runnable_network midpoint "u" "A" None 0 1 3 =
    Logged [InfoStarted "u"; InfoEstimated (inject_Z 0 * ((3 - 1) / 2 + 1)); InfoFinished "u"]
      (Ok []).
Proof.
  split; [lia|].
  exact (no_samples_no_fetch no_other_values midpoint runnable_network "u" "A" None 0 1 3
           (Z.le_refl 0)).
Defined.

Lemma finished_logged_iff_returns_witness :
  outcome (sample_thread_dumps no_other_values scenario_C_network midpoint "u" "X" None 3 1 3) =
    Ok [("X.y", 2, 6 # 2)] /\
  InfoFinished "u" ∈
    events (sample_thread_dumps no_other_values scenario_C_network midpoint "u" "X" None 3 1 3).
Proof.
  split; [reflexivity|].
  exact (proj1 (finished_logged_iff_returns no_other_values midpoint scenario_C_network
                  "u" "X" None 3 1 3)
           (ex_intro _ [("X.y", 2, 6 # 2)] eq_refl)).
Defined.

Lemma waits_within_bounds_witness :
  (1 <= 3)%Q /\ (forall i, (0 <= midpoint i)%Q /\ (midpoint i <= 1)%Q) /\
  DebugWaiting (4 # 2) 1 3 ∈
    events (sample_thread_dumps no_other_values scenario_C_network midpoint "u" "X" None 3 1 3) /\
  (1 <= 4 # 2)%Q /\ (4 # 2 <= 3)%Q.
Proof.
  assert (Hbounds : (1 <= 3)%Q) by (unfold Qle; simpl; lia).
  assert (Hrandom : forall i, (0 <= midpoint i)%Q /\ (midpoint i <= 1)%Q)
    by (intros i; split; unfold Qle; simpl; lia).
  assert (Hin : DebugWaiting (4 # 2) 1 3 ∈
    events (sample_thread_dumps no_other_values scenario_C_network midpoint "u" "X" None 3 1 3))
    by (apply (list_elem_of_lookup_2 _ 2%nat); reflexivity).
  split; [exact Hbounds|]. split; [exact Hrandom|]. split; [exact Hin|].
  destruct (waits_within_bounds no_other_values midpoint scenario_C_network "u" "X" None
              3 1 3 Hbounds Hrandom _ _ _ Hin) as (Hlo & Hhi & _).
  split; assumption.
Defined.

Lemma negative_intervals_raise_at_first_wait_witness :
  (-1 < 0)%Q /\ (0 <= midpoint 0)%Q /\ (midpoint 0 <= 1)%Q /\ 1 <= 2 /\
  sample_thread_dumps no_other_values runnable_network midpoint "u" "A" None 2 (-1) (-1) =
    Logged
      [InfoStarted "u"; InfoEstimated (inject_Z 2 * ((-1 - -1) / 2 + -1));
       DebugWaiting (uniform midpoint 0 (-1) (-1)) 1 2]
      (Raise ValueError).
Proof.
  assert (Hneg : (-1 < 0)%Q) by (unfold Qlt; simpl; lia).
  assert (H0 : (0 <= midpoint 0)%Q) by (unfold Qle; simpl; lia).
  assert (H1 : (midpoint 0 <= 1)%Q) by (unfold Qle; simpl; lia).
  assert (Hsamples : 1 <= 2) by lia.
  repeat (split; [assumption|]).
  exact (negative_intervals_raise_at_first_wait no_other_values midpoint runnable_network
           "u" "A" None 2 (-1) (-1) Hneg Hneg H0 H1 Hsamples).
Defined.


Lemma py_round_nearest_ties_to_even_witness :
  (5 # 2 <= 7 # 2)%Q /\ py_round (5 # 2) <= py_round (7 # 2) /\
  py_round (5 # 2) = 2 /\ py_round (7 # 2) = 4.
Proof.
  assert (Hle : (5 # 2 <= 7 # 2)%Q) by (unfold Qle; simpl; lia).
  split; [exact Hle|]. split; [|split; reflexivity].
  exact (proj2 (proj2 (proj2 (proj2 (py_round_nearest_ties_to_even (5 # 2))))) (7 # 2) Hle).
Defined.

Lemma written_report_rows_ordered_witness :
  outcome (sample_thread_dumps no_other_values scenario_C_network midpoint "u" "X" None 3 1 3) =
    Ok [("X.y", 2, 6 # 2)] /\
  file_rows (write_combined_report [("X.y", 2, 6 # 2)] "method_counts.csv") =
    [[CStr "Method"; CStr "Count"; CStr "Average Depth"]; [CStr "X.y"; CInt 2; CInt 3]] /\
  length (file_rows (write_combined_report [("X.y", 2, 6 # 2)] "method_counts.csv")) = 2%nat.
Proof.
  split; [reflexivity|]. split; [reflexivity|].
  exact (proj1 (proj2 (written_report_rows_ordered no_other_values midpoint
                         scenario_C_network "u" "X" None 3 1 3 _ "method_counts.csv" eq_refl))).
Defined.
